(** * COSMIC inventory standardizer: a shallow embedding and its properties

    This development embeds [cosmic_data_science/clean/standardize.py] and
    settles the properties stated for it.

    Modelling choices.
    - A Python [str] is a list of characters ([pystr]).  Characters are
      [ascii], read as the code points 0..127: the character tables below
      ([is_space], [is_digit], [is_word], [to_upper], ...) are Python's
      Unicode predicates on that range, where [str.strip], [str.title] and
      the [re] classes [\d], [\w], [\s] are fully determined.  Text with
      other code points is outside the embedding (Python's title-casing is
      there neither length-preserving nor idempotent); the tables treat the
      remaining values of [ascii] as caseless symbols, and a statement that
      would not hold of the code on such text says that the text is ASCII
      ([ascii_text], [ascii_frame]).
    - A spreadsheet cell is text, a number or missing (pandas' NaN).
      Numbers are integers; the pipeline performs no arithmetic on them.
    - A DataFrame is the list of its rows, read left to right as the ten
      named columns of the "Inventory" sheet, which are all present: the
      KeyError of a sheet that lacks a column is outside the embedding.
      [read_excel] itself is I/O and stays outside:
      [standardize_inventory_data] starts from the frame it returns.
    - Python exceptions are values of [exn], threaded by a small error
      monad.
    - [Series.fillna(..., inplace=True)] on a column selected from the frame
      is taken to update the frame, as it does in the pandas releases the
      module was written for. *)

From Stdlib Require Import List Bool Arith Lia ZArith Ascii String.
Import ListNotations.

Set Implicit Arguments.

(** ** Python strings *)

Definition pystr := list ascii.

Definition py (s : string) : pystr := list_ascii_of_string s.

Definition pystr_eq_dec : forall a b : pystr, {a = b} + {a <> b} :=
  list_eq_dec ascii_dec.

Module Char.

Definition code (c : ascii) : nat := nat_of_ascii c.

Definition between (lo hi : nat) (c : ascii) : bool :=
  (lo <=? code c) && (code c <=? hi).

(** [str.isspace] on 0..127: TAB, LF, VT, FF, CR, FS, GS, RS, US, SPACE. *)
Definition is_space (c : ascii) : bool := between 9 13 c || between 28 32 c.

(** [\d] on 0..127. *)
Definition is_digit (c : ascii) : bool := between 48 57 c.

Definition is_upper (c : ascii) : bool := between 65 90 c.
Definition is_lower (c : ascii) : bool := between 97 122 c.
Definition is_cased (c : ascii) : bool := is_upper c || is_lower c.

(** [\w] on 0..127: letters, digits and the underscore. *)
Definition is_word (c : ascii) : bool :=
  is_cased c || is_digit c || (code c =? 95).

Definition to_upper (c : ascii) : ascii :=
  if is_lower c then ascii_of_nat (code c - 32) else c.

Definition to_lower (c : ascii) : ascii :=
  if is_upper c then ascii_of_nat (code c + 32) else c.

(** The code points 0..127. *)
Definition is_ascii (c : ascii) : bool := code c <? 128.

Definition colon : ascii := ":"%char.

Definition is_colon (c : ascii) : bool := Ascii.eqb c colon.

End Char.

Module Str.
Import Char.

(** [s.lstrip()], [s.rstrip()], [s.strip()] with no argument. *)
Fixpoint lstrip (s : pystr) : pystr :=
  match s with
  | [] => []
  | c :: s' => if is_space c then lstrip s' else s
  end.

Definition rstrip (s : pystr) : pystr := rev (lstrip (rev s)).

Definition strip (s : pystr) : pystr := rstrip (lstrip s).

(** [s.title()]: a character that follows a cased character is lowered,
    any other character is title-cased (upper-cased, on 0..127). *)
Fixpoint title_from (previous_is_cased : bool) (s : pystr) : pystr :=
  match s with
  | [] => []
  | c :: s' =>
      (if previous_is_cased then to_lower c else to_upper c)
        :: title_from (is_cased c) s'
  end.

Definition title (s : pystr) : pystr := title_from false s.

(** [':' in s] *)
Definition contains_colon (s : pystr) : bool := existsb is_colon s.

(** [s.split(':', 1)]: one piece when there is no colon, otherwise the
    text before the first colon and the text after it. *)
Fixpoint split_colon_1 (s : pystr) : list pystr :=
  match s with
  | [] => [ [] ]
  | c :: s' =>
      if is_colon c then [ []; s' ]
      else match split_colon_1 s' with
           | p :: rest => (c :: p) :: rest
           | [] => [ [c] ]
           end
  end.

(** Length of the run of digits a string starts with. *)
Fixpoint digit_run (s : pystr) : nat :=
  match s with
  | [] => 0
  | c :: s' => if is_digit c then S (digit_run s') else 0
  end.

(** [re.search(r'\d+', s)]: the leftmost, longest run of digits, as the
    pair (start, end) of the match object; [None] when [s] has no digit. *)
Fixpoint search_digits (s : pystr) : option (nat * nat) :=
  match s with
  | [] => None
  | c :: s' =>
      if is_digit c then Some (0, S (digit_run s'))
      else match search_digits s' with
           | Some (b, e) => Some (S b, S e)
           | None => None
           end
  end.

Definition nonempty (s : pystr) : bool :=
  match s with [] => false | _ :: _ => true end.

End Str.

Import Char Str.

(** ** Label repair *)

(** [clean_taxonomy_labels]; [None] is Python's [None]. *)
Definition clean_taxonomy_labels (label : pystr) : option pystr :=
  if negb (nonempty label) then None
  else
    let converted_label := title (strip label) in
    let converted_label :=
      if negb (contains_colon converted_label) then
        match search_digits converted_label with
        | Some (_, e) =>
            firstn e converted_label ++ colon :: skipn e converted_label
        | None => converted_label
        end
      else converted_label in
    if contains_colon converted_label then
      Some (strip (hd [] (split_colon_1 converted_label)))
    else Some converted_label.

(** ** Description sanitization *)

(** The complement of the class [[^\w\s,.\-]] of [CLEAN_DESCRIPTION]: the
    characters that [CLEAN_DESCRIPTION.sub('', desc)] keeps. *)
Definition description_keeps (c : ascii) : bool :=
  is_word c || is_space c
  || Ascii.eqb c ","%char || Ascii.eqb c "."%char || Ascii.eqb c "-"%char.

Definition CLEAN_DESCRIPTION_sub (desc : pystr) : pystr :=
  filter description_keeps desc.

Definition no_description : pystr := py "No Description Available".

(** ** Exceptions *)

Inductive exn : Type := AttributeError | TypeError | ValueError.

Inductive result (A : Type) : Type :=
| Ok (a : A)
| Raise (e : exn).

Arguments Ok {A} a.
Arguments Raise {A} e.

Definition bind {A B : Type} (c : result A) (k : A -> result B) : result B :=
  match c with
  | Ok a => k a
  | Raise e => Raise e
  end.

Notation "x <- c ;; k" := (bind c (fun x => k))
  (at level 61, c at next level, right associativity).

Fixpoint mapM {A B : Type} (f : A -> result B) (l : list A) : result (list B) :=
  match l with
  | [] => Ok []
  | a :: l' => b <- f a ;; bs <- mapM f l' ;; Ok (b :: bs)
  end.

(** ** Cells, rows and frames *)

Inductive cell : Type :=
| Text (s : pystr)
| Number (n : Z)
| NaN.

Definition cell_eq_dec : forall a b : cell, {a = b} + {a <> b}.
Proof.
  decide equality; [apply pystr_eq_dec | apply Z.eq_dec].
Defined.

Record row : Type := Row {
  technology_name : cell;
  tech_producer : cell;
  description : cell;
  existing_technology : cell;
  level_one_category : cell;
  level_two_category : cell;
  level_three_category : cell;
  TRL : cell;
  level_one_functional_category : cell;
  level_two_functional_category : cell
}.

Definition row_eq_dec : forall a b : row, {a = b} + {a <> b}.
Proof.
  decide equality; apply cell_eq_dec.
Defined.

Definition DataFrame := list row.

Module Col.

Definition set_technology_name (v : cell) (r : row) : row :=
  Row v (tech_producer r) (description r) (existing_technology r)
      (level_one_category r) (level_two_category r) (level_three_category r)
      (TRL r) (level_one_functional_category r)
      (level_two_functional_category r).

Definition set_tech_producer (v : cell) (r : row) : row :=
  Row (technology_name r) v (description r) (existing_technology r)
      (level_one_category r) (level_two_category r) (level_three_category r)
      (TRL r) (level_one_functional_category r)
      (level_two_functional_category r).

Definition set_description (v : cell) (r : row) : row :=
  Row (technology_name r) (tech_producer r) v (existing_technology r)
      (level_one_category r) (level_two_category r) (level_three_category r)
      (TRL r) (level_one_functional_category r)
      (level_two_functional_category r).

Definition set_existing_technology (v : cell) (r : row) : row :=
  Row (technology_name r) (tech_producer r) (description r) v
      (level_one_category r) (level_two_category r) (level_three_category r)
      (TRL r) (level_one_functional_category r)
      (level_two_functional_category r).

Definition set_level_one_category (v : cell) (r : row) : row :=
  Row (technology_name r) (tech_producer r) (description r)
      (existing_technology r)
      v (level_two_category r) (level_three_category r)
      (TRL r) (level_one_functional_category r)
      (level_two_functional_category r).

Definition set_level_two_category (v : cell) (r : row) : row :=
  Row (technology_name r) (tech_producer r) (description r)
      (existing_technology r)
      (level_one_category r) v (level_three_category r)
      (TRL r) (level_one_functional_category r)
      (level_two_functional_category r).

Definition set_level_three_category (v : cell) (r : row) : row :=
  Row (technology_name r) (tech_producer r) (description r)
      (existing_technology r)
      (level_one_category r) (level_two_category r) v
      (TRL r) (level_one_functional_category r)
      (level_two_functional_category r).

Definition set_TRL (v : cell) (r : row) : row :=
  Row (technology_name r) (tech_producer r) (description r)
      (existing_technology r)
      (level_one_category r) (level_two_category r) (level_three_category r)
      v (level_one_functional_category r)
      (level_two_functional_category r).

Definition set_level_one_functional_category (v : cell) (r : row) : row :=
  Row (technology_name r) (tech_producer r) (description r)
      (existing_technology r)
      (level_one_category r) (level_two_category r) (level_three_category r)
      (TRL r) v (level_two_functional_category r).

Definition set_level_two_functional_category (v : cell) (r : row) : row :=
  Row (technology_name r) (tech_producer r) (description r)
      (existing_technology r)
      (level_one_category r) (level_two_category r) (level_three_category r)
      (TRL r) (level_one_functional_category r) v.

End Col.

Import Col.

(** ** The pandas operations the module calls *)

Module Pandas.

(** [df[name]] *)
Definition column (get : row -> cell) (df : DataFrame) : list cell :=
  map get df.

(** [df[name] = values], for a series that has one value per row. *)
Definition assign (set : cell -> row -> row) (values : list cell)
    (df : DataFrame) : DataFrame :=
  map (fun rv => set (snd rv) (fst rv)) (combine df values).

(** [df.drop_duplicates()]: a row is dropped when an equal row has been
    seen before it (missing cells compare equal); the first occurrence
    stays. *)
Fixpoint drop_duplicates_seen (seen : list row) (df : DataFrame) : DataFrame :=
  match df with
  | [] => []
  | r :: df' =>
      if in_dec row_eq_dec r seen then drop_duplicates_seen seen df'
      else r :: drop_duplicates_seen (r :: seen) df'
  end.

Definition drop_duplicates (df : DataFrame) : DataFrame :=
  drop_duplicates_seen [] df.

Definition is_text (c : cell) : bool :=
  match c with Text _ => true | _ => false end.

(** [series.str]: the accessor exists for a column of dtype object and
    raises AttributeError ("Can only use .str accessor with string
    values") for a numeric one.  A column read from a sheet is numeric as
    soon as it has rows and none of its cells is text. *)
Definition str_accessor (series : list cell) : result unit :=
  match series with
  | [] => Ok tt
  | _ :: _ => if existsb is_text series then Ok tt else Raise AttributeError
  end.

(** [series.str.<method>()]: the method is applied to the text cells; every
    other cell becomes missing. *)
Definition str_method (method : pystr -> pystr) (series : list cell)
    : result (list cell) :=
  _ <- str_accessor series ;;
  Ok (map (fun c => match c with Text s => Text (method s) | _ => NaN end)
          series).

(** [df.apply(f, axis=1)]: [f] on each row, top to bottom. *)
Definition apply_axis1 {A : Type} (f : row -> result A) (df : DataFrame)
    : result (list A) :=
  mapM f df.

(** [series.apply(f)] *)
Definition apply (f : cell -> cell) (series : list cell) : list cell :=
  map f series.

(** [series.fillna(value)] *)
Definition fillna (value : cell) (series : list cell) : list cell :=
  map (fun c => match c with NaN => value | _ => c end) series.

End Pandas.

Import Pandas.

(** ** Python builtins *)

(** [len(x)] for [x] a string or [None]: [None] has no length. *)
Definition py_len (x : option pystr) : result nat :=
  match x with
  | Some s => Ok (List.length s)
  | None => Raise TypeError
  end.

(** [max(items, key=key)]: the key is taken of every item, the first one
    included, and an item replaces the current maximum only when its key is
    strictly greater. *)
Fixpoint max_loop {A : Type} (key : A -> result nat) (maxitem : A) (maxval : nat)
    (rest : list A) : result A :=
  match rest with
  | [] => Ok maxitem
  | item :: rest' =>
      val <- key item ;;
      if maxval <? val then max_loop key item val rest'
      else max_loop key maxitem maxval rest'
  end.

Definition py_max {A : Type} (key : A -> result nat) (items : list A) : result A :=
  match items with
  | [] => Raise ValueError
  | item :: rest => maxval <- key item ;; max_loop key item maxval rest
  end.

(** [[cat for cat in categories if isinstance(cat, str)]] *)
Fixpoint str_instances (categories : list cell) : list pystr :=
  match categories with
  | [] => []
  | Text s :: rest => s :: str_instances rest
  | _ :: rest => str_instances rest
  end.

(** A Python value ([None] or a string) stored into a column. *)
Definition cell_of_value (v : option pystr) : cell :=
  match v with
  | Some s => Text s
  | None => NaN
  end.

(** ** The pipeline *)

Definition unknown_technology_category : pystr := py "Unknown Technology Category".
Definition unknown_functional_category : pystr := py "Unknown Functional Category".
Definition unknown_technology_name : pystr := py "Unknown Technology Name".
Definition unknown_tech_producer : pystr := py "Unknown Tech Producer".
Definition unknown_existing_technology : pystr := py "Unknown Existing Technology".

Definition longest_tech_category (r : row) : result (option pystr) :=
  let categories :=
    [level_one_category r; level_two_category r; level_three_category r] in
  let categories := map clean_taxonomy_labels (str_instances categories) in
  if negb (match categories with [] => false | _ => true end)
  then Ok (Some unknown_technology_category)
  else py_max py_len categories.

Definition longest_functional_category (r : row) : result (option pystr) :=
  let categories :=
    [level_one_functional_category r; level_two_functional_category r] in
  let categories := map clean_taxonomy_labels (str_instances categories) in
  if negb (match categories with [] => false | _ => true end)
  then Ok (Some unknown_functional_category)
  else py_max py_len categories.

Definition clean_description (desc : cell) : cell :=
  match desc with
  | Text desc =>
      let cleaned_text := CLEAN_DESCRIPTION_sub desc in
      if nonempty (strip cleaned_text) then Text (strip cleaned_text)
      else Text no_description
  | _ => Text no_description
  end.

(** [standardize_inventory_data], from the frame [read_excel] returned. *)
Definition standardize_inventory_data (df : DataFrame) : result DataFrame :=
  let df := drop_duplicates df in
  stripped <- str_method strip (column technology_name df) ;;
  titled <- str_method title stripped ;;
  let df := assign set_technology_name titled df in
  stripped <- str_method strip (column tech_producer df) ;;
  titled <- str_method title stripped ;;
  let df := assign set_tech_producer titled df in
  taxonomy_values <- apply_axis1 longest_tech_category df ;;
  let taxonomy_values := map cell_of_value taxonomy_values in
  let df := assign set_level_one_category taxonomy_values df in
  let df := assign set_level_two_category taxonomy_values df in
  let df := assign set_level_three_category taxonomy_values df in
  functional_values <- apply_axis1 longest_functional_category df ;;
  let df := assign set_level_one_functional_category
                   (map cell_of_value functional_values) df in
  functional_values <- apply_axis1 longest_functional_category df ;;
  let df := assign set_level_two_functional_category
                   (map cell_of_value functional_values) df in
  let fill (get : row -> cell) (set : cell -> row -> row) (value : cell)
           (df : DataFrame) : DataFrame :=
    assign set (fillna value (column get df)) df in
  let df := fill technology_name set_technology_name
                 (Text unknown_technology_name) df in
  let df := fill tech_producer set_tech_producer
                 (Text unknown_tech_producer) df in
  let df := fill description set_description (Text no_description) df in
  let df := fill existing_technology set_existing_technology
                 (Text unknown_existing_technology) df in
  let df := fill TRL set_TRL (Number 0) df in
  let df := fill level_one_category set_level_one_category
                 (Text unknown_technology_category) df in
  let df := fill level_two_category set_level_two_category
                 (Text unknown_technology_category) df in
  let df := fill level_three_category set_level_three_category
                 (Text unknown_technology_category) df in
  let df := fill level_one_functional_category
                 set_level_one_functional_category
                 (Text unknown_functional_category) df in
  let df := fill level_two_functional_category
                 set_level_two_functional_category
                 (Text unknown_functional_category) df in
  let df := assign set_description
                   (apply clean_description (column description df)) df in
  Ok df.

(** ** The pipeline read row by row

    Every statement of [standardize_inventory_data] after the deduplication
    acts on each row separately; [standardize_row] is what the statements do
    to one row, in the order the code runs them. *)

Definition str_cell (method : pystr -> pystr) (c : cell) : cell :=
  match c with Text s => Text (method s) | _ => NaN end.

Definition fill_cell (value c : cell) : cell :=
  match c with NaN => value | _ => c end.

Definition normalize_names (r : row) : row :=
  let r := set_technology_name
             (str_cell title (str_cell strip (technology_name r))) r in
  set_tech_producer (str_cell title (str_cell strip (tech_producer r))) r.

Definition set_technology_categories (v : cell) (r : row) : row :=
  set_level_three_category v
    (set_level_two_category v (set_level_one_category v r)).

Definition consolidate_technology (r : row) : result row :=
  v <- longest_tech_category r ;;
  Ok (set_technology_categories (cell_of_value v) r).

Definition consolidate_functional_one (r : row) : result row :=
  v <- longest_functional_category r ;;
  Ok (set_level_one_functional_category (cell_of_value v) r).

Definition consolidate_functional_two (r : row) : result row :=
  v <- longest_functional_category r ;;
  Ok (set_level_two_functional_category (cell_of_value v) r).

Definition fill_and_sanitize (r : row) : row :=
  Row (fill_cell (Text unknown_technology_name) (technology_name r))
      (fill_cell (Text unknown_tech_producer) (tech_producer r))
      (clean_description (fill_cell (Text no_description) (description r)))
      (fill_cell (Text unknown_existing_technology) (existing_technology r))
      (fill_cell (Text unknown_technology_category) (level_one_category r))
      (fill_cell (Text unknown_technology_category) (level_two_category r))
      (fill_cell (Text unknown_technology_category) (level_three_category r))
      (fill_cell (Number 0) (TRL r))
      (fill_cell (Text unknown_functional_category)
                 (level_one_functional_category r))
      (fill_cell (Text unknown_functional_category)
                 (level_two_functional_category r)).

Definition standardize_row (r : row) : result row :=
  r <- consolidate_technology (normalize_names r) ;;
  r <- consolidate_functional_one r ;;
  r <- consolidate_functional_two r ;;
  Ok (fill_and_sanitize r).

(** The row [standardize_row] returns, from the three consolidated values. *)
Definition standardized (r : row) (t f1 f2 : option pystr) : row :=
  Row (fill_cell (Text unknown_technology_name)
         (str_cell title (str_cell strip (technology_name r))))
      (fill_cell (Text unknown_tech_producer)
         (str_cell title (str_cell strip (tech_producer r))))
      (clean_description (fill_cell (Text no_description) (description r)))
      (fill_cell (Text unknown_existing_technology) (existing_technology r))
      (fill_cell (Text unknown_technology_category) (cell_of_value t))
      (fill_cell (Text unknown_technology_category) (cell_of_value t))
      (fill_cell (Text unknown_technology_category) (cell_of_value t))
      (fill_cell (Number 0) (TRL r))
      (fill_cell (Text unknown_functional_category) (cell_of_value f1))
      (fill_cell (Text unknown_functional_category) (cell_of_value f2)).

(** ** Vocabulary of the statements *)

(** The string starts, resp. ends, with a whitespace character. *)
Definition leading_space (s : pystr) : bool := hd false (map is_space s).
Definition trailing_space (s : pystr) : bool := leading_space (rev s).

Definition no_outer_space (s : pystr) : Prop :=
  leading_space s = false /\ trailing_space s = false.

(** A cell that holds nothing: missing, or the empty text. *)
Definition is_blank (c : cell) : bool :=
  match c with
  | NaN => true
  | Text s => negb (nonempty s)
  | Number _ => false
  end.

Definition cells (r : row) : list cell :=
  [technology_name r; tech_producer r; description r; existing_technology r;
   level_one_category r; level_two_category r; level_three_category r;
   TRL r; level_one_functional_category r; level_two_functional_category r].

(** The documented repair, following the words of the docstring and of the
    specification rather than the code: the colon goes after the LAST run of
    digits of the trimmed, title-cased label, and the label is cut there. *)
Fixpoint last_digit_end (s : pystr) : option nat :=
  match s with
  | [] => None
  | c :: s' =>
      match last_digit_end s' with
      | Some e => Some (S e)
      | None => if is_digit c then Some 1 else None
      end
  end.

Definition documented_repair_after_last_number (label : pystr) : option pystr :=
  let converted_label := title (strip label) in
  match last_digit_end converted_label with
  | Some e => Some (firstn e converted_label)
  | None => None
  end.

(** Deduplication as the specification words it: the row at position [i] is
    a duplicate when an equal row stands at an earlier position; the rows
    that are not duplicates are kept, in their order. *)
Definition duplicates_earlier_row (df : DataFrame) (i : nat) : bool :=
  match nth_error df i with
  | Some r => if in_dec row_eq_dec r (firstn i df) then true else false
  | None => false
  end.

Definition without_duplicates_of_earlier_rows (df : DataFrame) : DataFrame :=
  map snd
      (filter (fun ir => negb (duplicates_earlier_row df (fst ir)))
              (combine (seq 0 (List.length df)) df)).


(** Label repair returns the text of the cell unchanged. *)
Definition label_repair_fixes (c : cell) : Prop :=
  match c with
  | Text s => clean_taxonomy_labels s = Some s
  | _ => False
  end.



(** Text made of the code points 0..127 only; cells, rows and frames whose
    texts are all such. *)
Definition ascii_text (s : pystr) : Prop := forallb is_ascii s = true.

Definition ascii_cell (c : cell) : Prop :=
  match c with
  | Text s => ascii_text s
  | _ => True
  end.

Definition ascii_row (r : row) : Prop := Forall ascii_cell (cells r).

Definition ascii_frame (df : DataFrame) : Prop := Forall ascii_row df.


(** ** Sample rows *)

Module Sample.

(** Only the first functional category is given, as a full label. *)
Definition functional_label_row : row :=
  Row (Text (py "robotic arm")) (Text (py "acme")) (Text (py "An arm."))
      (Text (py "Yes")) NaN NaN NaN (Number 5)
      (Text (py "TX04.5.5: Capture Mechanisms and Fixtures")) NaN.

(** The first technology category is the empty string. *)
Definition empty_category_row : row :=
  Row (Text (py "robotic arm")) (Text (py "acme")) (Text (py "An arm."))
      (Text (py "Yes")) (Text []) NaN NaN (Number 5) NaN NaN.

(** The first functional category is a single space. *)
Definition blank_functional_row : row :=
  Row (Text (py "robotic arm")) (Text (py "acme")) (Text (py "An arm."))
      (Text (py "Yes")) NaN NaN NaN (Number 5) (Text (py " ")) NaN.

(** The technology name is made of spaces only. *)
Definition blank_name_row : row :=
  Row (Text (py "   ")) (Text (py "acme")) (Text (py "An arm."))
      (Text (py "Yes")) NaN NaN NaN (Number 5) NaN NaN.

(** Only the first functional category is given; its code part holds a
    space after its run of digits. *)
Definition functional_spaced_row : row :=
  Row (Text (py "robotic arm")) (Text (py "acme")) (Text (py "An arm."))
      (Text (py "Yes")) NaN NaN NaN (Number 5)
      (Text (py "a1 b: grippers")) NaN.

(** The same label as the first technology category. *)
Definition technology_spaced_row : row :=
  Row (Text (py "robotic arm")) (Text (py "acme")) (Text (py "An arm."))
      (Text (py "Yes"))
      (Text (py "a1 b: grippers")) NaN NaN
      (Number 5) NaN NaN.

Definition tie_row : row :=
  Row (Text (py "robotic arm")) (Text (py "acme")) (Text (py "An arm."))
      (Text (py "Yes"))
      (Text (py "A:1")) (Text (py "BB:22")) (Text (py "CC:33"))
      (Number 5) NaN NaN.

(** Labels whose code ends with its only run of digits. *)
Definition stable_row : row :=
  Row (Text (py " robotic ARM ")) (Text (py "acme")) (Text (py "An arm!"))
      NaN (Text (py "TX04: Robotics")) NaN (Text (py "tx4")) NaN
      (Text (py "F12: Grasping")) (Text (py "f1")).

(** The technology name is a number. *)
Definition numeric_name_row : row :=
  Row (Number 7) (Text (py "acme")) (Text (py "An arm."))
      (Text (py "Yes")) NaN NaN NaN (Number 5) NaN NaN.

Definition stable_output : DataFrame :=
  Eval vm_compute in
    match standardize_inventory_data [stable_row] with
    | Ok out => out
    | Raise _ => []
    end.

End Sample.

(** * Properties *)

(** ** Characters *)

Ltac all_chars c :=
  destruct c as [[] [] [] [] [] [] [] []]; vm_compute; reflexivity.

Lemma is_space_to_upper c : is_space (to_upper c) = is_space c.
Proof. all_chars c. Qed.

Lemma is_space_to_lower c : is_space (to_lower c) = is_space c.
Proof. all_chars c. Qed.

Lemma is_cased_to_upper c : is_cased (to_upper c) = is_cased c.
Proof. all_chars c. Qed.

Lemma is_cased_to_lower c : is_cased (to_lower c) = is_cased c.
Proof. all_chars c. Qed.

Lemma to_upper_involutive c : to_upper (to_upper c) = to_upper c.
Proof. all_chars c. Qed.

Lemma to_lower_involutive c : to_lower (to_lower c) = to_lower c.
Proof. all_chars c. Qed.

(** ** Trimming *)

Lemma lstrip_decomposes s :
  exists ws, s = ws ++ lstrip s /\ forallb is_space ws = true.
Proof.
  induction s as [|c s IH]; simpl.
  - exists []. now split.
  - destruct (is_space c) eqn:Hc.
    + destruct IH as (ws & Hs & Hws). exists (c :: ws). simpl.
      rewrite Hc, Hws. split; [now f_equal | reflexivity].
    + exists []. now split.
Qed.

Lemma leading_space_lstrip s : leading_space (lstrip s) = false.
Proof.
  induction s as [|c s IH]; simpl; [reflexivity|].
  destruct (is_space c) eqn:Hc; [exact IH|].
  unfold leading_space. simpl. exact Hc.
Qed.

Lemma lstrip_fixed s : leading_space s = false -> lstrip s = s.
Proof.
  destruct s as [|c s]; simpl; [reflexivity|].
  unfold leading_space. simpl. now intros ->.
Qed.

Lemma rstrip_decomposes s :
  exists ws, s = rstrip s ++ ws /\ forallb is_space ws = true.
Proof.
  unfold rstrip. destruct (lstrip_decomposes (rev s)) as (ws & Hs & Hws).
  exists (rev ws). split.
  - rewrite <- rev_app_distr, <- Hs. symmetry. apply rev_involutive.
  - rewrite forallb_forall in *. intros c Hc. apply Hws. now apply in_rev.
Qed.

Lemma leading_space_rstrip s :
  leading_space s = false -> leading_space (rstrip s) = false.
Proof.
  intros Hs. destruct (rstrip_decomposes s) as (ws & Heq & _).
  destruct (rstrip s) as [|c t]; [reflexivity|].
  rewrite Heq in Hs. exact Hs.
Qed.

Lemma strip_no_outer_space s : no_outer_space (strip s).
Proof.
  unfold strip. split.
  - apply leading_space_rstrip, leading_space_lstrip.
  - unfold trailing_space, rstrip. rewrite rev_involutive.
    apply leading_space_lstrip.
Qed.

Lemma strip_fixed s : no_outer_space s -> strip s = s.
Proof.
  intros [Hl Ht]. unfold strip, rstrip.
  rewrite (lstrip_fixed _ Hl), (lstrip_fixed _ Ht). apply rev_involutive.
Qed.

Lemma strip_idempotent s : strip (strip s) = strip s.
Proof. apply strip_fixed, strip_no_outer_space. Qed.

Lemma In_lstrip c s : In c (lstrip s) -> In c s.
Proof.
  destruct (lstrip_decomposes s) as (ws & Hs & _). intros Hc.
  rewrite Hs. apply in_or_app. now right.
Qed.

Lemma In_strip c s : In c (strip s) -> In c s.
Proof.
  unfold strip, rstrip. intros Hc.
  apply In_lstrip. apply in_rev in Hc. apply In_lstrip in Hc.
  now apply in_rev in Hc.
Qed.

(** ** Title-casing *)

Lemma title_from_spaces b s : map is_space (title_from b s) = map is_space s.
Proof.
  revert b. induction s as [|c s IH]; intros b; simpl; [reflexivity|].
  rewrite IH. f_equal.
  destruct b; [apply is_space_to_lower | apply is_space_to_upper].
Qed.

Lemma title_from_idempotent b s :
  title_from b (title_from b s) = title_from b s.
Proof.
  revert b. induction s as [|c s IH]; intros b; simpl; [reflexivity|].
  destruct b.
  - rewrite to_lower_involutive, is_cased_to_lower, IH. reflexivity.
  - rewrite to_upper_involutive, is_cased_to_upper, IH. reflexivity.
Qed.

Lemma title_idempotent s : title (title s) = title s.
Proof. apply title_from_idempotent. Qed.

Lemma title_no_outer_space s : no_outer_space s -> no_outer_space (title s).
Proof.
  unfold no_outer_space, trailing_space, leading_space, title.
  rewrite !map_rev, title_from_spaces. tauto.
Qed.

(** ** Splitting at the first colon *)

Lemma split_colon_1_head s :
  contains_colon (hd [] (split_colon_1 s)) = false.
Proof.
  induction s as [|c s IH]; simpl; [reflexivity|].
  destruct (is_colon c) eqn:Hc; simpl; [reflexivity|].
  destruct (split_colon_1 s) as [|p rest]; simpl in *.
  - now rewrite Hc.
  - now rewrite Hc, IH.
Qed.

Lemma split_colon_1_inserted p q :
  contains_colon p = false ->
  hd [] (split_colon_1 (p ++ colon :: q)) = p.
Proof.
  induction p as [|c p IH]; simpl; intros Hp; [reflexivity|].
  apply orb_false_iff in Hp. destruct Hp as [Hc Hp]. rewrite Hc.
  specialize (IH Hp).
  destruct (split_colon_1 (p ++ colon :: q)); simpl in *; now subst.
Qed.

Lemma contains_colon_inserted p q : contains_colon (p ++ colon :: q) = true.
Proof.
  unfold contains_colon. rewrite existsb_app. simpl.
  apply orb_true_iff. right. reflexivity.
Qed.

Lemma contains_colon_sub s t :
  (forall c, In c t -> In c s) ->
  contains_colon s = false -> contains_colon t = false.
Proof.
  unfold contains_colon. intros Hsub Hs.
  destruct (existsb is_colon t) eqn:Ht; [|reflexivity].
  apply existsb_exists in Ht. destruct Ht as (c & Hin & Hc).
  rewrite <- Hs. symmetry. apply existsb_exists. exists c. split; auto.
Qed.

Lemma contains_colon_strip s :
  contains_colon s = false -> contains_colon (strip s) = false.
Proof. apply contains_colon_sub. intros c. apply In_strip. Qed.

Lemma contains_colon_firstn n s :
  contains_colon s = false -> contains_colon (firstn n s) = false.
Proof.
  apply contains_colon_sub. intros c Hc.
  rewrite <- (firstn_skipn n s). apply in_or_app. now left.
Qed.

Lemma contains_colon_In s :
  contains_colon s = false -> ~ In colon s.
Proof.
  unfold contains_colon. intros Hs Hin.
  assert (existsb is_colon s = true) as Ht.
  { apply existsb_exists. exists colon. split; [assumption | reflexivity]. }
  congruence.
Qed.

(** ** Label repair *)

(** What [clean_taxonomy_labels] returns, case by case. *)
Lemma clean_taxonomy_labels_cases label :
  label <> [] ->
  let converted := title (strip label) in
  clean_taxonomy_labels label =
    Some (if contains_colon converted
          then strip (hd [] (split_colon_1 converted))
          else match search_digits converted with
               | Some (_, e) => strip (firstn e converted)
               | None => converted
               end).
Proof.
  intros Hne converted. unfold clean_taxonomy_labels.
  destruct label as [|c l]; [congruence|]. simpl nonempty. simpl negb.
  cbv zeta. fold converted.
  destruct (contains_colon converted) eqn:Hcolon; simpl negb; cbv iota.
  - rewrite Hcolon. reflexivity.
  - destruct (search_digits converted) as [[b e]|].
    + rewrite contains_colon_inserted.
      rewrite split_colon_1_inserted by now apply contains_colon_firstn.
      reflexivity.
    + rewrite Hcolon. reflexivity.
Qed.


(** C10.  When label repair is given a non-empty string and returns a
    string, that string contains no colon and neither starts nor ends with a
    whitespace character. *)
Theorem clean_taxonomy_labels_colon_free_and_trimmed label v :
  label <> [] ->
  clean_taxonomy_labels label = Some v ->
  ~ In colon v /\ no_outer_space v.
Proof.
  intros Hne Hv. rewrite (clean_taxonomy_labels_cases Hne) in Hv.
  injection Hv as <-.
  destruct (contains_colon (title (strip label))) eqn:Hcolon.
  - split; [|apply strip_no_outer_space].
    apply contains_colon_In, contains_colon_strip, split_colon_1_head.
  - destruct (search_digits (title (strip label))) as [[b e]|].
    + split; [|apply strip_no_outer_space].
      now apply contains_colon_In, contains_colon_strip, contains_colon_firstn.
    + split; [now apply contains_colon_In|].
      apply title_no_outer_space, strip_no_outer_space.
Qed.

Lemma clean_taxonomy_labels_colon_free_and_trimmed_witness :
  ~ In colon (py "Tx04") /\ no_outer_space (py "Tx04").
Proof.
  apply (@clean_taxonomy_labels_colon_free_and_trimmed (py " tx04 : arms ")).
  - discriminate.
  - reflexivity.
Defined.

(** C5.  On the label "tx04.5.5 capture mechanisms" (no colon, three runs of
    digits) the code cuts after the first run of digits and returns "Tx04",
    where the documented repair, after the last run, gives "Tx04.5.5". *)
Theorem clean_taxonomy_labels_cuts_after_first_number :
  clean_taxonomy_labels (py "tx04.5.5 capture mechanisms") = Some (py "Tx04")
  /\ documented_repair_after_last_number (py "tx04.5.5 capture mechanisms")
     = Some (py "Tx04.5.5").
Proof. split; reflexivity. Qed.

(** C6 as stated fails: the result for "TX04.5.5: Capture Mechanisms and
    Fixtures" is not "TX04.5.5". *)
Lemma clean_taxonomy_labels_loses_original_casing :
  clean_taxonomy_labels (py "TX04.5.5: Capture Mechanisms and Fixtures")
  <> Some (py "TX04.5.5").
Proof. vm_compute. discriminate. Qed.

(** C6, amended.  Label repair applied to "TX04.5.5: Capture Mechanisms and
    Fixtures" returns "Tx04.5.5": the code prefix before the first colon,
    title-cased. *)
Theorem clean_taxonomy_labels_full_label :
  clean_taxonomy_labels (py "TX04.5.5: Capture Mechanisms and Fixtures")
  = Some (py "Tx04.5.5").
Proof. reflexivity. Qed.

(** C7 as stated fails: the sanitized text is not "Valid, text. With symbols
    stuff.". *)
Lemma clean_description_does_not_rewrite_punctuation :
  clean_description (Text (py "Valid, text! With #symbols & stuff."))
  <> Text (py "Valid, text. With symbols stuff.").
Proof. vm_compute. discriminate. Qed.

(** C7, amended.  Description sanitization applied to "Valid, text! With
    #symbols & stuff." returns "Valid, text With symbols  stuff.": the
    characters '!', '#' and '&' are deleted and nothing takes their place, so
    no period follows "text" and the two spaces around '&' both stay; commas,
    periods, hyphens and spaces are preserved. *)
Theorem clean_description_example :
  clean_description (Text (py "Valid, text! With #symbols & stuff."))
  = Text (py "Valid, text With symbols  stuff.")
  /\ description_keeps "!"%char = false
  /\ description_keeps "#"%char = false
  /\ description_keeps "&"%char = false
  /\ description_keeps ","%char = true
  /\ description_keeps "."%char = true
  /\ description_keeps "-"%char = true
  /\ description_keeps " "%char = true.
Proof. repeat split. Qed.

(** ** Deduplication *)

Lemma drop_duplicates_seen_positions seen earlier df :
  (forall r, In r seen <-> In r earlier) ->
  drop_duplicates_seen seen df =
  map snd
      (filter (fun ir => negb (duplicates_earlier_row (earlier ++ df) (fst ir)))
              (combine (seq (List.length earlier) (List.length df)) df)).
Proof.
  revert seen earlier. induction df as [|r df IH]; intros seen earlier Hseen.
  - reflexivity.
  - simpl. unfold duplicates_earlier_row at 1.
    rewrite nth_error_app2 by lia. rewrite Nat.sub_diag. simpl nth_error.
    rewrite firstn_app, Nat.sub_diag, firstn_all. simpl firstn.
    rewrite app_nil_r.
    assert (earlier ++ r :: df = (earlier ++ [r]) ++ df) as Happ
      by now rewrite <- app_assoc.
    assert (S (List.length earlier) = List.length (earlier ++ [r])) as Hlen
      by (rewrite length_app; simpl; lia).
    rewrite Happ, Hlen.
    destruct (in_dec row_eq_dec r seen) as [Hin|Hout];
      destruct (in_dec row_eq_dec r earlier) as [Hin'|Hout'];
      try (exfalso; apply Hseen in Hin; tauto);
      try (exfalso; apply Hseen in Hin'; tauto); simpl.
    + apply IH. intros x. rewrite in_app_iff, Hseen. simpl.
      split; [tauto|]. intros [H|[<-|[]]]; assumption.
    + f_equal. apply IH. intros x. rewrite in_app_iff. simpl.
      rewrite Hseen. tauto.
Qed.

Lemma drop_duplicates_seen_fixed seen df :
  NoDup df -> (forall r, In r df -> ~ In r seen) ->
  drop_duplicates_seen seen df = df.
Proof.
  revert seen. induction df as [|r df IH]; intros seen Hnd Hseen.
  - reflexivity.
  - simpl. inversion Hnd as [|? ? Hr Hnd']; subst.
    destruct (in_dec row_eq_dec r seen) as [Hin|_].
    + exfalso. apply (Hseen r); simpl; auto.
    + f_equal. apply IH; [assumption|].
      intros x Hx [<-|Hin]; [contradiction|].
      apply (Hseen x); simpl; auto.
Qed.

Lemma drop_duplicates_fixed df : NoDup df -> drop_duplicates df = df.
Proof. intros H. apply drop_duplicates_seen_fixed; auto. Qed.

(** C9.  Deduplication removes exactly the rows that equal, on all fields,
    a row at an earlier position: the first occurrence is kept and the kept
    rows stay in their order.  On [A; A; B] it returns [A; B] when B differs
    from A. *)
Theorem drop_duplicates_keeps_first_occurrences (df : DataFrame) (A B : row) :
  drop_duplicates df = without_duplicates_of_earlier_rows df
  /\ drop_duplicates [A; A; B] = if row_eq_dec A B then [A] else [A; B].
Proof.
  split.
  - apply (@drop_duplicates_seen_positions [] [] df). tauto.
  - unfold drop_duplicates. simpl.
    destruct (row_eq_dec A A) as [_|Hn]; [|congruence].
    destruct (row_eq_dec A B) as [->|Hn].
    + destruct (row_eq_dec B B); [reflexivity | congruence].
    + destruct (row_eq_dec A B); [congruence | reflexivity].
Qed.

(** ** The error monad and frames *)

Lemma bind_Ok {A B : Type} (a : A) (k : A -> result B) : bind (Ok a) k = k a.
Proof. reflexivity. Qed.

Lemma bind_Ok_inv {A B : Type} (c : result A) (k : A -> result B) b :
  bind c k = Ok b -> exists a, c = Ok a /\ k a = Ok b.
Proof. destruct c as [a|e]; simpl; [eauto | discriminate]. Qed.

Lemma mapM_ext {A B : Type} (f g : A -> result B) l :
  (forall a, f a = g a) -> mapM f l = mapM g l.
Proof.
  intros Hfg. induction l as [|a l IH]; simpl; [reflexivity|].
  now rewrite Hfg, IH.
Qed.

Lemma mapM_pure {A B : Type} (k : A -> B) l :
  mapM (fun a => Ok (k a)) l = Ok (map k l).
Proof.
  induction l as [|a l IH]; simpl; [reflexivity|]. now rewrite IH.
Qed.

Lemma mapM_fuse {A B C : Type} (f : A -> result B) (g : B -> result C) l n :
  mapM (fun a => b <- f a ;; g b) l = Ok n <->
  exists m, mapM f l = Ok m /\ mapM g m = Ok n.
Proof.
  revert n. induction l as [|a l IH]; intros n; simpl.
  - split.
    + intros H. exists []. now split.
    + intros (m & Hm & Hn). injection Hm as <-. exact Hn.
  - split.
    + intros H.
      destruct (f a) as [b|e]; [simpl in H | discriminate].
      destruct (g b) as [c|e] eqn:Hc; [simpl in H | discriminate].
      destruct (mapM (fun a => b <- f a ;; g b) l) as [n'|e] eqn:Hl;
        [simpl in H | discriminate].
      destruct (proj1 (IH n') eq_refl) as (m & Hm & Hn).
      exists (b :: m). rewrite Hm. simpl. rewrite Hc, Hn. simpl.
      split; [reflexivity | exact H].
    + intros (m & Hm & Hn).
      destruct (f a) as [b|e]; [simpl in Hm |- * | discriminate].
      destruct (mapM f l) as [m'|e]; [simpl in Hm | discriminate].
      injection Hm as <-. simpl in Hn.
      destruct (g b) as [c|e]; [simpl in Hn |- * | discriminate].
      destruct (mapM g m') as [n'|e] eqn:Hn'; [simpl in Hn | discriminate].
      rewrite (proj2 (IH n')) by eauto. exact Hn.
Qed.

Lemma mapM_In {A B : Type} (f : A -> result B) l m b :
  mapM f l = Ok m -> In b m -> exists a, In a l /\ f a = Ok b.
Proof.
  revert m. induction l as [|a l IH]; intros m H Hb; simpl in H.
  - injection H as <-. destruct Hb.
  - destruct (f a) as [b'|e] eqn:Ha; [simpl in H | discriminate].
    destruct (mapM f l) as [m'|e]; [simpl in H | discriminate].
    injection H as <-. destruct Hb as [<-|Hb].
    + exists a. split; [now left | assumption].
    + destruct (IH m' eq_refl Hb) as (a' & Hin & Hfa).
      exists a'. split; [now right | assumption].
Qed.

Lemma mapM_fixed {A : Type} (f : A -> result A) l :
  (forall a, In a l -> f a = Ok a) -> mapM f l = Ok l.
Proof.
  induction l as [|a l IH]; intros H; simpl; [reflexivity|].
  rewrite H by now left. simpl. rewrite IH; [reflexivity|].
  intros x Hx. apply H. now right.
Qed.

Lemma assign_map set (h : row -> cell) df :
  assign set (map h df) df = map (fun r => set (h r) r) df.
Proof.
  unfold assign. induction df as [|r df IH]; simpl; [reflexivity|].
  now rewrite IH.
Qed.

Lemma assign_thrice s1 s2 s3 values df :
  assign s3 values (assign s2 values (assign s1 values df))
  = assign (fun v r => s3 v (s2 v (s1 v r))) values df.
Proof.
  unfold assign. revert values.
  induction df as [|r df IH]; intros [|v values]; simpl; try reflexivity.
  now rewrite IH.
Qed.

(** A statement [df[name] = df.apply(f, axis=1)] acts row by row. *)
Lemma apply_then_assign {A : Type} (f : row -> result A) (c : A -> cell)
    (set : cell -> row -> row) df df' :
  mapM (fun r => v <- f r ;; Ok (set (c v) r)) df = Ok df' <->
  exists values, apply_axis1 f df = Ok values
                 /\ df' = assign set (map c values) df.
Proof.
  unfold apply_axis1, assign. revert df'.
  induction df as [|r df IH]; intros df'; simpl.
  - split.
    + intros H. injection H as <-. exists []. now split.
    + intros (values & Hv & ->). injection Hv as <-. reflexivity.
  - destruct (f r) as [v|e]; simpl.
    + destruct (mapM (fun r => v <- f r ;; Ok (set (c v) r)) df) as [d|e] eqn:Hd;
        simpl.
      * destruct (proj1 (IH d) eq_refl) as (values & Hv & ->).
        rewrite Hv. simpl. split.
        -- intros H. injection H as <-. exists (v :: values). now split.
        -- intros (values' & Hv' & ->). injection Hv' as <-. reflexivity.
      * split; [discriminate|]. intros (values & Hv & ->).
        destruct (mapM f df) as [vs|e'] eqn:Hvs; [|discriminate].
        assert (Raise e = Ok (map (fun rv => set (snd rv) (fst rv))
                                 (combine df (map c vs)))) as X
          by (apply IH; eauto).
        discriminate X.
    + split; [discriminate|]. intros (values & Hv & _). discriminate.
Qed.

Lemma str_method_Ok method series out :
  str_method method series = Ok out <->
  str_accessor series = Ok tt /\ out = map (str_cell method) series.
Proof.
  unfold str_method. destruct (str_accessor series) as [[]|e]; simpl.
  - split.
    + intros H. injection H as <-. now split.
    + intros [_ ->]. reflexivity.
  - split; [discriminate | intros [H _]; discriminate].
Qed.

Lemma existsb_is_text_str_cell method series :
  existsb is_text (map (str_cell method) series) = existsb is_text series.
Proof.
  induction series as [|x l IH]; simpl; [reflexivity|].
  rewrite IH. now destruct x.
Qed.

Lemma str_accessor_str_cell method series :
  str_accessor (map (str_cell method) series) = str_accessor series.
Proof.
  destruct series as [|c series]; [reflexivity|].
  change (map (str_cell method) (c :: series))
    with (str_cell method c :: map (str_cell method) series).
  unfold str_accessor.
  change (str_cell method c :: map (str_cell method) series)
    with (map (str_cell method) (c :: series)).
  now rewrite existsb_is_text_str_cell.
Qed.

(** The statements from the first [fillna] to the end act row by row. *)
Lemma fill_and_sanitize_frame (d : DataFrame) :
  (let fill (get : row -> cell) (set : cell -> row -> row) (value : cell)
           (df : DataFrame) : DataFrame :=
    assign set (fillna value (column get df)) df in
  let df := fill technology_name set_technology_name
                 (Text unknown_technology_name) d in
  let df := fill tech_producer set_tech_producer
                 (Text unknown_tech_producer) df in
  let df := fill description set_description (Text no_description) df in
  let df := fill existing_technology set_existing_technology
                 (Text unknown_existing_technology) df in
  let df := fill TRL set_TRL (Number 0) df in
  let df := fill level_one_category set_level_one_category
                 (Text unknown_technology_category) df in
  let df := fill level_two_category set_level_two_category
                 (Text unknown_technology_category) df in
  let df := fill level_three_category set_level_three_category
                 (Text unknown_technology_category) df in
  let df := fill level_one_functional_category
                 set_level_one_functional_category
                 (Text unknown_functional_category) df in
  let df := fill level_two_functional_category
                 set_level_two_functional_category
                 (Text unknown_functional_category) df in
  let df := assign set_description
                   (apply clean_description (column description df)) df in
  df) = map fill_and_sanitize d.
Proof.
  induction d as [|r d IH]; [reflexivity|].
  simpl map. rewrite <- IH. destruct r; reflexivity.
Qed.

(** The two name columns: both [.str] chains act row by row, provided the
    accessor exists on each column. *)
Lemma normalize_names_frame d :
  assign set_tech_producer
    (map (str_cell title)
       (map (str_cell strip)
          (column tech_producer
             (assign set_technology_name
                (map (str_cell title)
                   (map (str_cell strip) (column technology_name d))) d))))
    (assign set_technology_name
       (map (str_cell title)
          (map (str_cell strip) (column technology_name d))) d)
  = map normalize_names d.
Proof.
  induction d as [|r d IH]; [reflexivity|].
  simpl map. rewrite <- IH. destruct r; reflexivity.
Qed.

Lemma column_tech_producer_after_names values d :
  List.length values = List.length d ->
  column tech_producer (assign set_technology_name values d)
  = column tech_producer d.
Proof.
  unfold column, assign. revert values.
  induction d as [|r d IH]; intros [|v values]; simpl; try discriminate;
    [reflexivity|].
  intros H. rewrite IH by lia. now destruct r.
Qed.

Lemma str_method_eval method series :
  str_accessor series = Ok tt ->
  str_method method series = Ok (map (str_cell method) series).
Proof. intros H. now apply str_method_Ok. Qed.

(** ** The pipeline acts row by row *)

Lemma standardize_row_stages d out :
  mapM standardize_row d = Ok out <->
  exists d5 d6 d7,
    mapM consolidate_technology (map normalize_names d) = Ok d5
    /\ mapM consolidate_functional_one d5 = Ok d6
    /\ mapM consolidate_functional_two d6 = Ok d7
    /\ out = map fill_and_sanitize d7.
Proof.
  pose (last_stage := fun r3 : row =>
          r4 <- consolidate_functional_two r3 ;; Ok (fill_and_sanitize r4)).
  pose (from_functional := fun r2 : row =>
          r3 <- consolidate_functional_one r2 ;; last_stage r3).
  pose (from_technology := fun r1 : row =>
          r2 <- consolidate_technology r1 ;; from_functional r2).
  assert (mapM standardize_row d =
          mapM (fun r => r1 <- Ok (normalize_names r) ;; from_technology r1) d)
    as -> by (apply mapM_ext; reflexivity).
  split.
  - intros H.
    apply (mapM_fuse (fun r => Ok (normalize_names r)) from_technology) in H.
    destruct H as (d2 & H2 & H). rewrite mapM_pure in H2. injection H2 as <-.
    apply (mapM_fuse consolidate_technology from_functional) in H.
    destruct H as (d5 & H5 & H).
    apply (mapM_fuse consolidate_functional_one last_stage) in H.
    destruct H as (d6 & H6 & H).
    apply (mapM_fuse consolidate_functional_two
                     (fun r4 => Ok (fill_and_sanitize r4))) in H.
    destruct H as (d7 & H7 & H). rewrite mapM_pure in H. injection H as <-.
    exists d5, d6, d7. auto.
  - intros (d5 & d6 & d7 & H5 & H6 & H7 & ->).
    apply (mapM_fuse (fun r => Ok (normalize_names r)) from_technology).
    exists (map normalize_names d). split; [apply mapM_pure|].
    apply (mapM_fuse consolidate_technology from_functional).
    exists d5. split; [assumption|].
    apply (mapM_fuse consolidate_functional_one last_stage).
    exists d6. split; [assumption|].
    apply (mapM_fuse consolidate_functional_two
                     (fun r4 => Ok (fill_and_sanitize r4))).
    exists d7. split; [assumption | apply mapM_pure].
Qed.

Ltac bind_step H a E :=
  apply bind_Ok_inv in H; destruct H as (a & E & H); cbv beta in H.

(** [standardize_inventory_data] completes exactly when the [.str] accessor
    exists on both name columns and every row of the deduplicated frame goes
    through [standardize_row]; its result is then the list of the rows'
    results. *)
Theorem standardize_inventory_data_rows df out :
  standardize_inventory_data df = Ok out <->
  str_accessor (column technology_name (drop_duplicates df)) = Ok tt
  /\ str_accessor (column tech_producer (drop_duplicates df)) = Ok tt
  /\ mapM standardize_row (drop_duplicates df) = Ok out.
Proof.
  unfold standardize_inventory_data. cbv zeta.
  generalize (drop_duplicates df). clear df. intros d.
  assert (List.length
            (map (str_cell title)
               (map (str_cell strip) (column technology_name d)))
          = List.length d) as Hlen
    by (unfold column; now rewrite !length_map).
  pose proof (fill_and_sanitize_frame) as Htail. cbv beta zeta in Htail.
  split.
  - intros H.
    bind_step H stripped E1. bind_step H titled E2.
    apply str_method_Ok in E1. destruct E1 as [A1 ->].
    apply str_method_Ok in E2. destruct E2 as [_ ->].
    bind_step H stripped E3. bind_step H titled E4.
    apply str_method_Ok in E3. destruct E3 as [A2 ->].
    apply str_method_Ok in E4. destruct E4 as [_ ->].
    rewrite column_tech_producer_after_names in A2 by exact Hlen.
    rewrite normalize_names_frame in H.
    bind_step H values E5. rewrite assign_thrice in H.
    bind_step H values1 E6. bind_step H values2 E7.
    rewrite Htail in H. injection H as <-.
    split; [assumption|]. split; [assumption|].
    apply standardize_row_stages.
    eexists _, _, _. split; [|split; [|split; [|reflexivity]]].
    + apply apply_then_assign. exists values. split; [exact E5 | reflexivity].
    + apply apply_then_assign. exists values1.
      split; [exact E6 | reflexivity].
    + apply apply_then_assign. exists values2.
      split; [exact E7 | reflexivity].
  - intros (A1 & A2 & H).
    apply standardize_row_stages in H.
    destruct H as (d5 & d6 & d7 & H5 & H6 & H7 & ->).
    apply apply_then_assign in H5. destruct H5 as (values & E5 & ->).
    apply apply_then_assign in H6. destruct H6 as (values1 & E6 & ->).
    apply apply_then_assign in H7. destruct H7 as (values2 & E7 & ->).
    rewrite (@str_method_eval strip _ A1), bind_Ok.
    rewrite str_method_eval, bind_Ok by now rewrite str_accessor_str_cell.
    rewrite column_tech_producer_after_names by exact Hlen.
    rewrite (@str_method_eval strip _ A2), bind_Ok.
    rewrite str_method_eval, bind_Ok by now rewrite str_accessor_str_cell.
    rewrite <- (@column_tech_producer_after_names _ _ Hlen).
    rewrite normalize_names_frame.
    rewrite E5, bind_Ok. rewrite assign_thrice.
    change (fun v r => set_level_three_category v
                         (set_level_two_category v
                            (set_level_one_category v r)))
      with set_technology_categories.
    rewrite E6, bind_Ok. rewrite E7, bind_Ok.
    rewrite Htail. reflexivity.
Qed.

(** ** One row *)

Lemma longest_tech_category_categories r r' :
  level_one_category r' = level_one_category r ->
  level_two_category r' = level_two_category r ->
  level_three_category r' = level_three_category r ->
  longest_tech_category r' = longest_tech_category r.
Proof. unfold longest_tech_category. now intros -> -> ->. Qed.

Lemma longest_functional_category_categories r r' :
  level_one_functional_category r' = level_one_functional_category r ->
  level_two_functional_category r' = level_two_functional_category r ->
  longest_functional_category r' = longest_functional_category r.
Proof. unfold longest_functional_category. now intros -> ->. Qed.

Lemma standardize_row_Ok r o :
  standardize_row r = Ok o <->
  exists t f1 f2,
    longest_tech_category r = Ok t
    /\ longest_functional_category r = Ok f1
    /\ longest_functional_category
         (set_level_one_functional_category (cell_of_value f1) r) = Ok f2
    /\ o = standardized r t f1 f2.
Proof.
  unfold standardize_row, consolidate_technology, consolidate_functional_one,
    consolidate_functional_two.
  rewrite (@longest_tech_category_categories r (normalize_names r))
    by (destruct r; reflexivity).
  split.
  - intros H.
    destruct (longest_tech_category r) as [t|e] eqn:Ht; [|discriminate].
    rewrite !bind_Ok in H.
    rewrite (@longest_functional_category_categories r) in H
      by (destruct r; reflexivity).
    destruct (longest_functional_category r) as [f1|e] eqn:Hf1; [|discriminate].
    rewrite !bind_Ok in H.
    rewrite (@longest_functional_category_categories
               (set_level_one_functional_category (cell_of_value f1) r)) in H
      by (destruct r; reflexivity).
    destruct (longest_functional_category
                (set_level_one_functional_category (cell_of_value f1) r))
      as [f2|e] eqn:Hf2; [|discriminate].
    rewrite !bind_Ok in H. injection H as <-.
    exists t, f1, f2. repeat split; try assumption; destruct r; reflexivity.
  - intros (t & f1 & f2 & Ht & Hf1 & Hf2 & ->).
    rewrite Ht, !bind_Ok.
    rewrite (@longest_functional_category_categories r) by (destruct r; reflexivity).
    rewrite Hf1, !bind_Ok.
    rewrite (@longest_functional_category_categories
               (set_level_one_functional_category (cell_of_value f1) r))
      by (destruct r; reflexivity).
    rewrite Hf2, !bind_Ok. destruct r; reflexivity.
Qed.

(** ** [max(..., key=len)] *)

Lemma max_loop_py_len_None maxitem maxval rest :
  In None rest -> max_loop py_len maxitem maxval rest = Raise TypeError.
Proof.
  revert maxitem maxval. induction rest as [|x rest IH]; intros m n Hin.
  - destruct Hin.
  - simpl. destruct x as [s|]; [|reflexivity]. simpl.
    destruct Hin as [Hin|Hin]; [discriminate|].
    destruct (n <? List.length s); now apply IH.
Qed.

Lemma py_max_py_len_None items :
  In None items -> py_max py_len items = Raise TypeError.
Proof.
  destruct items as [|x items]; intros Hin; [destruct Hin|].
  simpl. destruct x as [s|]; [|reflexivity]. simpl.
  destruct Hin as [Hin|Hin]; [discriminate|].
  now apply max_loop_py_len_None.
Qed.



Lemma mapM_nth_error {A B : Type} (f : A -> result B) l m i a :
  mapM f l = Ok m -> nth_error l i = Some a ->
  exists b, nth_error m i = Some b /\ f a = Ok b.
Proof.
  revert m i. induction l as [|x l IH]; intros m i H Hi; simpl in H.
  - destruct i; discriminate.
  - destruct (f x) as [b|e] eqn:Hx; [simpl in H | discriminate].
    destruct (mapM f l) as [m'|e]; [simpl in H | discriminate].
    injection H as <-. destruct i as [|i]; simpl in *.
    + injection Hi as <-. eauto.
    + now apply IH.
Qed.

(** ** Consolidation of the technology categories *)







(** Among "A:1", "BB:22" and "CC:33" the repaired labels are "A", "Bb" and
    "Cc"; the first of the two longest wins. *)
Example longest_tech_category_tie :
  longest_tech_category Sample.tie_row = Ok (Some (py "Bb")).
Proof. reflexivity. Qed.

(** ** The categories of an output row *)

(** X7.  The three technology-category fields of every output row are equal. *)
Lemma technology_categories_identical df out o :
  standardize_inventory_data df = Ok out -> In o out ->
  level_one_category o = level_two_category o
  /\ level_two_category o = level_three_category o.
Proof.
  intros Hout Ho. apply standardize_inventory_data_rows in Hout.
  destruct Hout as (_ & _ & Hrows).
  destruct (@mapM_In _ _ _ _ _ _ Hrows Ho) as (r & _ & Hro).
  apply standardize_row_Ok in Hro.
  destruct Hro as (t & f1 & f2 & _ & _ & _ & ->). now split.
Qed.

(** C1.  On a row whose Level One Functional Category is "TX04.5.5: Capture
    Mechanisms and Fixtures" and whose Level Two Functional Category is
    missing, the pipeline completes and leaves two different values in the
    two functional-category fields, "Tx04.5.5" and "Tx04"; with the label
    "a1 b: grippers" the two fields are "A1 B" and "A1". *)
Theorem functional_categories_differ :
  (exists o,
     standardize_inventory_data [Sample.functional_label_row] = Ok [o]
     /\ level_one_functional_category o = Text (py "Tx04.5.5")
     /\ level_two_functional_category o = Text (py "Tx04")
     /\ level_one_functional_category o <> level_two_functional_category o)
  /\ (exists o,
        standardize_inventory_data [Sample.functional_spaced_row] = Ok [o]
        /\ level_one_functional_category o = Text (py "A1 B")
        /\ level_two_functional_category o = Text (py "A1")
        /\ level_one_functional_category o
           <> level_two_functional_category o).
Proof.
  split; (eexists; split; [vm_compute; reflexivity|]);
    repeat split; discriminate.
Qed.

(** Whenever one of the three technology-category cells is the empty
    string, consolidation of the row raises TypeError. *)
Lemma longest_tech_category_empty_string r :
  In (Text []) [level_one_category r; level_two_category r;
                level_three_category r] ->
  longest_tech_category r = Raise TypeError.
Proof.
  intros Hin. unfold longest_tech_category. cbv zeta.
  assert (In None (map clean_taxonomy_labels
                     (str_instances [level_one_category r;
                                     level_two_category r;
                                     level_three_category r]))) as Hnone.
  { destruct (level_one_category r) as [[|? ?]| |],
             (level_two_category r) as [[|? ?]| |],
             (level_three_category r) as [[|? ?]| |];
      simpl in Hin |- *;
      repeat match goal with
             | H : _ \/ _ |- _ => destruct H
             | H : False |- _ => destruct H
             end;
      try discriminate; tauto. }
  destruct (map clean_taxonomy_labels _) as [|x l]; [destruct Hnone|].
  now apply py_max_py_len_None.
Qed.

(** C2.  Label repair answers [None] on the empty string, but consolidation
    keeps that [None] among the candidates and [max(..., key=len)] raises
    TypeError on it: the pipeline fails on a row whose Level One Category is
    the empty string, and also on a row whose Level One Functional Category
    is a single space (repaired to the empty string by the first functional
    pass and read again by the second). *)
Theorem empty_category_raises :
  clean_taxonomy_labels [] = None
  /\ longest_tech_category Sample.empty_category_row = Raise TypeError
  /\ standardize_inventory_data [Sample.empty_category_row] = Raise TypeError
  /\ standardize_inventory_data [Sample.blank_functional_row]
     = Raise TypeError.
Proof. repeat split. Qed.

Lemma fill_cell_not_NaN value c : value <> NaN -> fill_cell value c <> NaN.
Proof. destruct c; simpl; intros H; try discriminate; exact H. Qed.

Lemma clean_description_is_text c : exists s, clean_description c = Text s.
Proof.
  destruct c as [s| |]; simpl; eauto.
  destruct (nonempty (strip (CLEAN_DESCRIPTION_sub s))); eauto.
Qed.

(** X6.  No field of an output row is missing (NaN). *)
Lemma no_missing_cell df out o :
  standardize_inventory_data df = Ok out -> In o out ->
  Forall (fun c => c <> NaN) (cells o).
Proof.
  intros Hout Ho. apply standardize_inventory_data_rows in Hout.
  destruct Hout as (_ & _ & Hrows).
  destruct (@mapM_In _ _ _ _ _ _ Hrows Ho) as (r & _ & Hro).
  apply standardize_row_Ok in Hro.
  destruct Hro as (t & f1 & f2 & _ & _ & _ & ->).
  unfold cells, standardized. simpl.
  repeat constructor; try (apply fill_cell_not_NaN; discriminate).
  destruct (clean_description_is_text
              (fill_cell (Text no_description) (description r))) as (s & ->).
  discriminate.
Qed.

(** C3.  On a row whose Technology Name is made of spaces only, the
    pipeline completes and the Technology Name of the output row is the
    empty string: trimming empties it and [fillna] only replaces missing
    cells. *)
Theorem blank_name_stays_empty :
  exists o,
    standardize_inventory_data [Sample.blank_name_row] = Ok [o]
    /\ technology_name o = Text []
    /\ existsb is_blank (cells o) = true.
Proof.
  eexists. split; [vm_compute; reflexivity|]. split; reflexivity.
Qed.

(** ** Standardizing a standardized frame *)

(** C4 as stated fails: on a frame of one row whose Level One Category is
    "a1 b: grippers", the first pass leaves "A1 B" in the category fields and
    a second pass cuts it to "A1", so standardizing the output does not give
    the output back. *)
Lemma standardize_not_idempotent :
  (out <- standardize_inventory_data [Sample.technology_spaced_row] ;;
   standardize_inventory_data out)
  <> standardize_inventory_data [Sample.technology_spaced_row].
Proof. vm_compute. discriminate. Qed.

Lemma title_strip_fixed s : title (strip (title (strip s))) = title (strip s).
Proof.
  rewrite (@strip_fixed (title (strip s))
             (@title_no_outer_space (strip s) (strip_no_outer_space s))).
  apply title_idempotent.
Qed.

Lemma name_cell_stable placeholder c :
  title (strip placeholder) = placeholder ->
  fill_cell (Text placeholder)
    (str_cell title
       (str_cell strip
          (fill_cell (Text placeholder)
             (str_cell title (str_cell strip c)))))
  = fill_cell (Text placeholder) (str_cell title (str_cell strip c)).
Proof.
  intros H. destruct c as [s| |]; simpl.
  - now rewrite title_strip_fixed.
  - now rewrite H.
  - now rewrite H.
Qed.

Lemma fill_cell_idempotent value c :
  value <> NaN -> fill_cell value (fill_cell value c) = fill_cell value c.
Proof. destruct c; simpl; try reflexivity. now destruct value. Qed.

Lemma filter_fixed {A : Type} (p : A -> bool) l :
  (forall a, In a l -> p a = true) -> filter p l = l.
Proof.
  induction l as [|a l IH]; intros H; simpl; [reflexivity|].
  rewrite H by now left. f_equal. apply IH. intros x Hx. apply H. now right.
Qed.

Lemma clean_description_idempotent c :
  clean_description (fill_cell (Text no_description) (clean_description c))
  = clean_description c.
Proof.
  destruct c as [s| |]; try reflexivity.
  unfold clean_description at 2 3.
  destruct (nonempty (strip (CLEAN_DESCRIPTION_sub s))) eqn:Hne;
    [|reflexivity].
  simpl. unfold CLEAN_DESCRIPTION_sub at 1 3.
  rewrite filter_fixed.
  - now rewrite strip_idempotent, Hne.
  - intros a Ha. apply In_strip in Ha. unfold CLEAN_DESCRIPTION_sub in Ha.
    now apply filter_In in Ha.
Qed.

Lemma longest_tech_category_of_fixed o g :
  level_one_category o = Text g ->
  level_two_category o = Text g ->
  level_three_category o = Text g ->
  clean_taxonomy_labels g = Some g ->
  longest_tech_category o = Ok (Some g).
Proof.
  unfold longest_tech_category. intros -> -> -> Hg. simpl.
  rewrite Hg. simpl. now rewrite Nat.ltb_irrefl.
Qed.

Lemma longest_functional_category_of_fixed o g :
  level_one_functional_category o = Text g ->
  level_two_functional_category o = Text g ->
  clean_taxonomy_labels g = Some g ->
  longest_functional_category o = Ok (Some g).
Proof.
  unfold longest_functional_category. intros -> -> Hg. simpl.
  rewrite Hg. simpl. now rewrite Nat.ltb_irrefl.
Qed.

Lemma technology_value_fixed r t :
  longest_tech_category r = Ok t ->
  label_repair_fixes
    (fill_cell (Text unknown_technology_category) (cell_of_value t)) ->
  exists g, fill_cell (Text unknown_technology_category) (cell_of_value t)
            = Text g
            /\ clean_taxonomy_labels g = Some g.
Proof.
  intros _ H. destruct t as [g|]; simpl in *; eauto.
Qed.

(** When the first functional pass returns a value that label repair leaves
    alone, the second pass returns the same value. *)
Lemma functional_value_fixed r f1 f2 :
  longest_functional_category r = Ok f1 ->
  longest_functional_category
    (set_level_one_functional_category (cell_of_value f1) r) = Ok f2 ->
  label_repair_fixes
    (fill_cell (Text unknown_functional_category) (cell_of_value f1)) ->
  exists g, f1 = Some g /\ f2 = Some g /\ clean_taxonomy_labels g = Some g.
Proof.
  unfold longest_functional_category. destruct r as [? ? ? ? ? ? ? ? a b].
  simpl level_one_functional_category. simpl level_two_functional_category.
  intros H1 H2 Hfix.
  destruct f1 as [g|].
  2:{ exfalso. revert H1. clear.
      destruct a as [sa| |], b as [sb| |]; simpl; try discriminate;
        repeat match goal with
               | |- context [clean_taxonomy_labels ?s] =>
                   destruct (clean_taxonomy_labels s); simpl
               | |- context [?n <? ?m] => destruct (n <? m); simpl
               end; discriminate. }
  simpl in Hfix, H2. exists g. split; [reflexivity|]. split; [|exact Hfix].
  rewrite Hfix in H2.
  destruct b as [sb| |]; simpl in H2.
  - destruct (clean_taxonomy_labels sb) as [b'|] eqn:Hb; [|discriminate].
    simpl in H2.
    destruct a as [sa| |]; simpl in H1; rewrite ?Hb in H1; simpl in H1.
    + destruct (clean_taxonomy_labels sa) as [a'|]; [|discriminate].
      simpl in H1.
      destruct (List.length a' <? List.length b') eqn:Hab;
        injection H1 as <-.
      * rewrite Nat.ltb_irrefl in H2. now injection H2 as <-.
      * rewrite Hab in H2. now injection H2 as <-.
    + injection H1 as <-. rewrite Nat.ltb_irrefl in H2.
      now injection H2 as <-.
    + injection H1 as <-. rewrite Nat.ltb_irrefl in H2.
      now injection H2 as <-.
  - now injection H2 as <-.
  - now injection H2 as <-.
Qed.

Lemma standardize_row_stable r o :
  standardize_row r = Ok o ->
  label_repair_fixes (level_one_category o) ->
  label_repair_fixes (level_one_functional_category o) ->
  standardize_row o = Ok o.
Proof.
  intros Hro Ht Hf. apply standardize_row_Ok in Hro.
  destruct Hro as (t & f1 & f2 & Et & E1 & E2 & ->).
  simpl in Ht, Hf.
  destruct (@technology_value_fixed r t Et Ht) as (g & Hg & Hgfix).
  destruct (@functional_value_fixed r f1 f2 E1 E2 Hf) as (h & -> & -> & Hhfix).
  apply standardize_row_Ok. exists (Some g), (Some h), (Some h).
  split; [|split; [|split]].
  - apply longest_tech_category_of_fixed; try assumption.
  - now apply longest_functional_category_of_fixed.
  - now apply longest_functional_category_of_fixed.
  - unfold standardized.
    cbn [technology_name tech_producer description existing_technology TRL].
    rewrite !name_cell_stable by reflexivity.
    rewrite clean_description_idempotent.
    rewrite !fill_cell_idempotent by discriminate.
    rewrite Hg. reflexivity.
Qed.

Lemma str_accessor_all_text series :
  Forall (fun c => is_text c = true) series -> str_accessor series = Ok tt.
Proof.
  intros H. destruct series as [|c series]; [reflexivity|].
  inversion H as [|? ? Hc _]; subst. unfold str_accessor. simpl.
  now rewrite Hc.
Qed.

Lemma output_names_are_text r o :
  standardize_row r = Ok o ->
  is_text (technology_name o) = true /\ is_text (tech_producer o) = true.
Proof.
  intros Hro. apply standardize_row_Ok in Hro.
  destruct Hro as (t & f1 & f2 & _ & _ & _ & ->). simpl.
  split; [destruct (technology_name r) | destruct (tech_producer r)];
    reflexivity.
Qed.

(** C4, amended.  On a frame whose texts are all ASCII: when the pipeline
    completes, its output has no two equal rows, and label repair leaves
    unchanged the technology-category value and the Level One
    functional-category value of every output row, then standardizing the
    output completes and returns the output unchanged. *)
Theorem standardize_idempotent_on_stable_output df out :
  ascii_frame df ->
  standardize_inventory_data df = Ok out ->
  NoDup out ->
  (forall o, In o out ->
     label_repair_fixes (level_one_category o)
     /\ label_repair_fixes (level_one_functional_category o)) ->
  standardize_inventory_data out = Ok out.
Proof.
  intros _ Hout Hnodup Hfix.
  apply standardize_inventory_data_rows in Hout.
  destruct Hout as (_ & _ & Hrows).
  assert (forall o, In o out -> exists r, standardize_row r = Ok o) as Horigin.
  { intros o Ho. destruct (@mapM_In _ _ _ _ _ _ Hrows Ho) as (r & _ & Hr).
    eauto. }
  apply standardize_inventory_data_rows.
  rewrite (@drop_duplicates_fixed out Hnodup).
  split; [|split].
  - apply str_accessor_all_text. unfold column. apply Forall_map.
    apply Forall_forall. intros o Ho. destruct (Horigin o Ho) as (r & Hr).
    now apply (@output_names_are_text r o Hr).
  - apply str_accessor_all_text. unfold column. apply Forall_map.
    apply Forall_forall. intros o Ho. destruct (Horigin o Ho) as (r & Hr).
    now apply (@output_names_are_text r o Hr).
  - apply mapM_fixed. intros o Ho. destruct (Horigin o Ho) as (r & Hr).
    destruct (Hfix o Ho) as [Ht Hf].
    exact (@standardize_row_stable r o Hr Ht Hf).
Qed.

Lemma standardize_idempotent_on_stable_output_witness :
  standardize_inventory_data Sample.stable_output = Ok Sample.stable_output.
Proof.
  apply (@standardize_idempotent_on_stable_output [Sample.stable_row]).
  - repeat constructor.
  - reflexivity.
  - repeat constructor. simpl. tauto.
  - intros o [<-|[]]. split; reflexivity.
Defined.

(** ** Where the colon is inserted *)

Lemma digit_is_not_space c : is_digit c && is_space c = false.
Proof. all_chars c. Qed.

Lemma digit_run_digits s : forallb is_digit (firstn (digit_run s) s) = true.
Proof.
  induction s as [|c s IH]; simpl; [reflexivity|].
  destruct (is_digit c) eqn:Hc; simpl; [|reflexivity]. now rewrite Hc.
Qed.

(** The match of [re.search(r'\d+', s)] ends with a digit. *)
Lemma search_digits_ends_with_digit s b e :
  search_digits s = Some (b, e) ->
  exists p d, firstn e s = p ++ [d] /\ is_digit d = true.
Proof.
  revert b e. induction s as [|c s IH]; intros b e H; simpl in H.
  - discriminate.
  - destruct (is_digit c) eqn:Hc.
    + injection H as <- <-.
      pose proof (digit_run_digits s) as Hrun.
      change (firstn (S (digit_run s)) (c :: s))
        with (c :: firstn (digit_run s) s).
      destruct (@exists_last _ (c :: firstn (digit_run s) s)) as (p & d & Heq);
        [discriminate|].
      exists p, d. split; [exact Heq|].
      assert (In d (c :: firstn (digit_run s) s)) as Hd
        by (rewrite Heq; apply in_or_app; right; now left).
      destruct Hd as [<-|Hd]; [exact Hc|].
      rewrite forallb_forall in Hrun. now apply Hrun.
    + destruct (search_digits s) as [[b' e']|]; [|discriminate].
      injection H as <- <-.
      destruct (IH b' e' eq_refl) as (p & d & Heq & Hd).
      exists (c :: p), d. simpl. now rewrite Heq.
Qed.

(** The match of [re.search(r'\d+', s)] starts at the first digit of [s]. *)
Lemma search_digits_leftmost s b e :
  search_digits s = Some (b, e) ->
  forallb (fun c => negb (is_digit c)) (firstn b s) = true
  /\ e = b + digit_run (skipn b s)
  /\ 0 < digit_run (skipn b s).
Proof.
  revert b e. induction s as [|c s IH]; intros b e H; simpl in H.
  - discriminate.
  - destruct (is_digit c) eqn:Hc.
    + injection H as <- <-. simpl. rewrite Hc. repeat split; lia.
    + destruct (search_digits s) as [[b' e']|]; [|discriminate].
      injection H as <- <-.
      destruct (IH b' e' eq_refl) as (Hp & He & Hrun).
      simpl. rewrite Hc, Hp. repeat split; [lia | assumption].
Qed.

(** X11.  What the code does with a label that has no colon but has a digit: it
    returns the trimmed, title-cased label cut at the end of its FIRST run of
    digits. *)
Lemma clean_taxonomy_labels_cuts_after_first_run label b e :
  label <> [] ->
  contains_colon (title (strip label)) = false ->
  search_digits (title (strip label)) = Some (b, e) ->
  clean_taxonomy_labels label = Some (firstn e (title (strip label))).
Proof.
  intros Hne Hcolon Hsearch.
  rewrite (clean_taxonomy_labels_cases Hne). cbv zeta.
  rewrite Hcolon, Hsearch. f_equal. apply strip_fixed.
  destruct (search_digits_ends_with_digit _ Hsearch) as (p & d & Heq & Hd).
  pose proof (digit_is_not_space d) as Hds. rewrite Hd in Hds. simpl in Hds.
  split.
  - pose proof (title_no_outer_space (strip_no_outer_space label)) as [Hl _].
    destruct (title (strip label)) as [|c cv]; [now destruct e|].
    destruct e as [|e]; [now destruct p|]. exact Hl.
  - rewrite Heq. unfold trailing_space. rewrite rev_app_distr. exact Hds.
Qed.

(** * Further properties of the module *)

(** ** Deduplication, continued *)

Lemma drop_duplicates_seen_spec seen df :
  NoDup (drop_duplicates_seen seen df)
  /\ forall r, In r (drop_duplicates_seen seen df) <-> In r df /\ ~ In r seen.
Proof.
  revert seen. induction df as [|a df IH]; intros seen; simpl.
  - split; [constructor | tauto].
  - destruct (in_dec row_eq_dec a seen) as [Hin|Hout].
    + destruct (IH seen) as [Hnd Hmem]. split; [exact Hnd|].
      intros r. rewrite Hmem. split; [tauto|].
      intros [[<-|Hr] Hs]; [contradiction | tauto].
    + destruct (IH (a :: seen)) as [Hnd Hmem]. split.
      * constructor; [|exact Hnd]. rewrite Hmem. simpl. tauto.
      * intros r. simpl. rewrite Hmem. simpl.
        destruct (row_eq_dec a r) as [<-|Hne]; tauto.
Qed.

Lemma drop_duplicates_seen_length seen df :
  List.length (drop_duplicates_seen seen df) <= List.length df.
Proof.
  revert seen. induction df as [|a df IH]; intros seen; simpl; [lia|].
  destruct (in_dec row_eq_dec a seen); simpl.
  - specialize (IH seen). lia.
  - specialize (IH (a :: seen)). lia.
Qed.

Lemma drop_duplicates_distinct_rows df r :
  In r df -> In r (drop_duplicates df).
Proof.
  intros H. unfold drop_duplicates.
  apply (proj2 (drop_duplicates_seen_spec [] df)). simpl. tauto.
Qed.

(** X3.  The frame [drop_duplicates] returns has no two equal rows, holds exactly
    the rows of its argument, and is left unchanged by a second
    deduplication. *)
Theorem drop_duplicates_distinct_same_rows (df : DataFrame) :
  NoDup (drop_duplicates df)
  /\ (forall r, In r (drop_duplicates df) <-> In r df)
  /\ drop_duplicates (drop_duplicates df) = drop_duplicates df.
Proof.
  destruct (drop_duplicates_seen_spec [] df) as [Hnd Hmem].
  split; [exact Hnd|]. split.
  - intros r. unfold drop_duplicates. rewrite Hmem. simpl. tauto.
  - now apply drop_duplicates_fixed.
Qed.

Lemma mapM_length {A B : Type} (f : A -> result B) l m :
  mapM f l = Ok m -> List.length m = List.length l.
Proof.
  revert m. induction l as [|a l IH]; intros m H; simpl in H.
  - now injection H as <-.
  - destruct (f a) as [b|e]; [simpl in H | discriminate].
    destruct (mapM f l) as [m'|e]; [simpl in H | discriminate].
    injection H as <-. simpl. now rewrite (IH m').
Qed.

Lemma mapM_Ok_each {A B : Type} (f : A -> result B) l m a :
  mapM f l = Ok m -> In a l -> exists b, f a = Ok b.
Proof.
  revert m. induction l as [|x l IH]; intros m H Ha; simpl in H.
  - destruct Ha.
  - destruct (f x) as [b|e] eqn:Hx; [simpl in H | discriminate].
    destruct (mapM f l) as [m'|e]; [simpl in H | discriminate].
    destruct Ha as [<-|Ha]; [eauto|]. now apply (IH m').
Qed.

(** ** Size of the output *)

(** X2.  When the pipeline completes, the output has one row per distinct input
    row: as many rows as the deduplicated frame and never more than the
    input. *)
Theorem standardize_row_count df out :
  standardize_inventory_data df = Ok out ->
  List.length out = List.length (drop_duplicates df)
  /\ List.length out <= List.length df.
Proof.
  intros H. apply standardize_inventory_data_rows in H.
  destruct H as (_ & _ & H). apply mapM_length in H.
  split; [exact H|]. rewrite H. apply drop_duplicates_seen_length.
Qed.

Lemma standardize_row_count_witness :
  List.length Sample.stable_output
  = List.length (drop_duplicates [Sample.stable_row; Sample.stable_row])
  /\ List.length Sample.stable_output
     <= List.length [Sample.stable_row; Sample.stable_row].
Proof.
  apply (@standardize_row_count [Sample.stable_row; Sample.stable_row]).
  vm_compute. reflexivity.
Defined.

(** ** The rows of the output *)

Lemma mapM_Forall2 {A B : Type} (f : A -> result B) l m :
  mapM f l = Ok m <-> Forall2 (fun a b => f a = Ok b) l m.
Proof.
  revert m. induction l as [|a l IH]; intros m; simpl.
  - split.
    + intros H. injection H as <-. constructor.
    + intros H. inversion H. reflexivity.
  - split.
    + intros H.
      destruct (f a) as [b|e] eqn:Ha; [simpl in H | discriminate].
      destruct (mapM f l) as [m'|e] eqn:Hl; [simpl in H | discriminate].
      injection H as <-. constructor; [exact Ha | now apply IH].
    + intros H. inversion H as [|? b ? m' Ha Hl]; subst.
      rewrite Ha. simpl. apply IH in Hl. rewrite Hl. reflexivity.
Qed.

(** X1.  The pipeline completes exactly when the [.str] accessor exists on the
    Technology Name and Tech Producer columns of the deduplicated frame and
    every deduplicated row goes through the per-row steps; the output then
    holds, position by position, the result of each row, so a row of the
    output depends on no other row. *)
Theorem standardize_completes_row_by_row df out :
  standardize_inventory_data df = Ok out <->
  str_accessor (column technology_name (drop_duplicates df)) = Ok tt
  /\ str_accessor (column tech_producer (drop_duplicates df)) = Ok tt
  /\ Forall2 (fun r o => standardize_row r = Ok o) (drop_duplicates df) out.
Proof.
  rewrite standardize_inventory_data_rows, mapM_Forall2. reflexivity.
Qed.

(** X4.  Outside the category columns every output field is computed from the
    same field of the same row: a text name or producer is trimmed and
    title-cased and anything else (numbers included) becomes the placeholder;
    the description goes through [clean_description]; Existing Technology
    and TRL are kept unless missing. *)
Theorem output_fields_from_input_fields df out i r :
  standardize_inventory_data df = Ok out ->
  nth_error (drop_duplicates df) i = Some r ->
  exists o,
    nth_error out i = Some o
    /\ technology_name o
       = match technology_name r with
         | Text s => Text (title (strip s))
         | _ => Text unknown_technology_name
         end
    /\ tech_producer o
       = match tech_producer r with
         | Text s => Text (title (strip s))
         | _ => Text unknown_tech_producer
         end
    /\ description o = clean_description (description r)
    /\ existing_technology o
       = match existing_technology r with
         | NaN => Text unknown_existing_technology
         | c => c
         end
    /\ TRL o = match TRL r with NaN => Number 0 | c => c end.
Proof.
  intros Hout Hi. apply standardize_inventory_data_rows in Hout.
  destruct Hout as (_ & _ & Hrows).
  destruct (@mapM_nth_error _ _ _ _ _ _ _ Hrows Hi) as (o & Ho & Hro).
  exists o. split; [exact Ho|].
  apply standardize_row_Ok in Hro.
  destruct Hro as (t & f1 & f2 & _ & _ & _ & ->). simpl.
  repeat split.
  - now destruct (technology_name r).
  - now destruct (tech_producer r).
  - now destruct (description r).
  - now destruct (existing_technology r).
  - now destruct (TRL r).
Qed.

Lemma output_fields_from_input_fields_witness :
  exists o,
    nth_error Sample.stable_output 0 = Some o
    /\ technology_name o
       = match technology_name Sample.stable_row with
         | Text s => Text (title (strip s))
         | _ => Text unknown_technology_name
         end
    /\ tech_producer o
       = match tech_producer Sample.stable_row with
         | Text s => Text (title (strip s))
         | _ => Text unknown_tech_producer
         end
    /\ description o = clean_description (description Sample.stable_row)
    /\ existing_technology o
       = match existing_technology Sample.stable_row with
         | NaN => Text unknown_existing_technology
         | c => c
         end
    /\ TRL o = match TRL Sample.stable_row with NaN => Number 0 | c => c end.
Proof.
  apply (@output_fields_from_input_fields [Sample.stable_row]).
  - vm_compute. reflexivity.
  - reflexivity.
Defined.

Lemma title_from_length b s : List.length (title_from b s) = List.length s.
Proof.
  revert b. induction s as [|c s IH]; intros b; simpl; [reflexivity|].
  now rewrite IH.
Qed.

(** X5.  On a frame whose Technology Name and Tech Producer texts are
    ASCII, in every output row the Technology Name and the Tech Producer are
    texts that neither start nor end with whitespace and that title-casing
    leaves unchanged. *)
Theorem output_names_normalized df out o :
  (forall r, In r df ->
     ascii_cell (technology_name r) /\ ascii_cell (tech_producer r)) ->
  standardize_inventory_data df = Ok out -> In o out ->
  exists name producer,
    technology_name o = Text name /\ tech_producer o = Text producer
    /\ no_outer_space name /\ title name = name
    /\ no_outer_space producer /\ title producer = producer.
Proof.
  intros _ Hout Ho. apply standardize_inventory_data_rows in Hout.
  destruct Hout as (_ & _ & Hrows).
  destruct (@mapM_In _ _ _ _ _ _ Hrows Ho) as (r & _ & Hro).
  apply standardize_row_Ok in Hro.
  destruct Hro as (t & f1 & f2 & _ & _ & _ & ->). simpl.
  assert (forall placeholder c,
             no_outer_space placeholder -> title placeholder = placeholder ->
             exists s,
               fill_cell (Text placeholder)
                 (str_cell title (str_cell strip c)) = Text s
               /\ no_outer_space s /\ title s = s) as Hcell.
  { intros placeholder c Hp Ht. destruct c as [s| |]; simpl; eauto.
    exists (title (strip s)). split; [reflexivity|]. split.
    - apply title_no_outer_space, strip_no_outer_space.
    - apply title_idempotent. }
  destruct (Hcell unknown_technology_name (technology_name r))
    as (name & -> & Hn1 & Hn2); [split; reflexivity | reflexivity |].
  destruct (Hcell unknown_tech_producer (tech_producer r))
    as (producer & -> & Hp1 & Hp2); [split; reflexivity | reflexivity |].
  exists name, producer. auto 10.
Qed.

Lemma output_names_normalized_witness :
  exists name producer,
    technology_name (hd Sample.stable_row Sample.stable_output) = Text name
    /\ tech_producer (hd Sample.stable_row Sample.stable_output)
       = Text producer
    /\ no_outer_space name /\ title name = name
    /\ no_outer_space producer /\ title producer = producer.
Proof.
  apply (@output_names_normalized [Sample.stable_row] Sample.stable_output).
  - intros r [<-|[]]. split; reflexivity.
  - vm_compute. reflexivity.
  - left. reflexivity.
Defined.

Lemma no_missing_cell_witness :
  Forall (fun c => c <> NaN)
         (cells (hd Sample.stable_row Sample.stable_output)).
Proof.
  apply (@no_missing_cell [Sample.stable_row] Sample.stable_output).
  - vm_compute. reflexivity.
  - left. reflexivity.
Defined.

Lemma technology_categories_identical_witness :
  level_one_category (hd Sample.stable_row Sample.stable_output)
  = level_two_category (hd Sample.stable_row Sample.stable_output)
  /\ level_two_category (hd Sample.stable_row Sample.stable_output)
     = level_three_category (hd Sample.stable_row Sample.stable_output).
Proof.
  apply (@technology_categories_identical [Sample.stable_row]
                                          Sample.stable_output).
  - vm_compute. reflexivity.
  - left. reflexivity.
Defined.

Lemma clean_taxonomy_labels_cuts_after_first_run_witness :
  clean_taxonomy_labels (py "tx04.5.5 capture mechanisms")
  = Some (firstn 4 (title (strip (py "tx04.5.5 capture mechanisms")))).
Proof.
  apply (@clean_taxonomy_labels_cuts_after_first_run
           (py "tx04.5.5 capture mechanisms") 2 4).
  - discriminate.
  - reflexivity.
  - reflexivity.
Defined.

(** ** Label repair, continued *)

Lemma split_colon_1_head_prefix s :
  exists rest, s = hd [] (split_colon_1 s) ++ rest.
Proof.
  induction s as [|c s (rest & IH)]; simpl.
  - exists []. reflexivity.
  - destruct (is_colon c).
    + exists (c :: s). reflexivity.
    + destruct (split_colon_1 s) as [|p l]; simpl in *.
      * exists s. reflexivity.
      * exists rest. now rewrite IH at 1.
Qed.

Lemma firstn_prefix {A : Type} n (s : list A) :
  exists rest, s = firstn n s ++ rest.
Proof. exists (skipn n s). symmetry. apply firstn_skipn. Qed.

Lemma leading_space_prefix p rest :
  leading_space (p ++ rest) = false -> leading_space p = false.
Proof. destruct p; [reflexivity | exact (fun H => H)]. Qed.

(** Trimming a prefix of a text that does not start with whitespace gives a
    prefix of that text. *)
Lemma strip_prefix p rest :
  leading_space (p ++ rest) = false ->
  exists rest', p ++ rest = strip p ++ rest'.
Proof.
  intros H. unfold strip.
  rewrite (lstrip_fixed _ (leading_space_prefix _ _ H)).
  destruct (rstrip_decomposes p) as (ws & Hp & _).
  exists (ws ++ rest). rewrite app_assoc, <- Hp. reflexivity.
Qed.

Lemma strip_length s : List.length (strip s) <= List.length s.
Proof.
  unfold strip.
  destruct (lstrip_decomposes s) as (ws & Hs & _).
  destruct (rstrip_decomposes (lstrip s)) as (ws' & Hs' & _).
  rewrite Hs at 2. rewrite Hs' at 2. rewrite !length_app. lia.
Qed.

Lemma repaired_label_prefix label v :
  clean_taxonomy_labels label = Some v ->
  exists rest, title (strip label) = v ++ rest.
Proof.
  intros Hv.
  assert (label <> []) as Hne by (intros ->; discriminate).
  rewrite (clean_taxonomy_labels_cases Hne) in Hv. injection Hv as <-.
  pose proof (title_no_outer_space (strip_no_outer_space label)) as [Hl _].
  destruct (contains_colon (title (strip label))).
  - destruct (split_colon_1_head_prefix (title (strip label)))
      as (rest & Heq).
    destruct (@strip_prefix (hd [] (split_colon_1 (title (strip label))))
                rest) as (rest' & Heq'); [now rewrite <- Heq|].
    exists rest'. etransitivity; [exact Heq | exact Heq'].
  - destruct (search_digits (title (strip label))) as [[b e]|].
    + destruct (firstn_prefix e (title (strip label))) as (rest & Heq).
      destruct (@strip_prefix (firstn e (title (strip label))) rest)
        as (rest' & Heq'); [now rewrite <- Heq|].
      exists rest'. etransitivity; [exact Heq | exact Heq'].
    + exists []. now rewrite app_nil_r.
Qed.

Lemma repaired_label_length label v :
  clean_taxonomy_labels label = Some v ->
  List.length v <= List.length label.
Proof.
  intros Hv. destruct (repaired_label_prefix _ Hv) as (rest & Heq).
  pose proof (strip_length label) as Hlen.
  assert (List.length (title (strip label)) = List.length (strip label))
    as Htitle by apply title_from_length.
  rewrite Heq, length_app in Htitle. lia.
Qed.

(** X12.  On an ASCII label, whatever label repair returns is a prefix of
    the trimmed, title-cased label, so it is never longer than the label. *)
Theorem clean_taxonomy_labels_prefix label v :
  ascii_text label ->
  clean_taxonomy_labels label = Some v ->
  (exists rest, title (strip label) = v ++ rest)
  /\ List.length v <= List.length label.
Proof.
  intros _ Hv. split;
    [exact (repaired_label_prefix _ Hv) | exact (repaired_label_length _ Hv)].
Qed.

Lemma clean_taxonomy_labels_prefix_witness :
  (exists rest, title (strip (py " tx04 : arms ")) = py "Tx04" ++ rest)
  /\ List.length (py "Tx04") <= List.length (py " tx04 : arms ").
Proof.
  apply (@clean_taxonomy_labels_prefix (py " tx04 : arms ")); reflexivity.
Defined.

Lemma is_colon_to_upper c : is_colon (to_upper c) = is_colon c.
Proof. all_chars c. Qed.

Lemma is_colon_to_lower c : is_colon (to_lower c) = is_colon c.
Proof. all_chars c. Qed.

Lemma colon_is_not_space c : is_colon c && is_space c = false.
Proof. all_chars c. Qed.

Lemma contains_colon_title_from b s :
  contains_colon (title_from b s) = contains_colon s.
Proof.
  unfold contains_colon. revert b.
  induction s as [|c s IH]; intros b; simpl; [reflexivity|].
  rewrite IH. f_equal.
  destruct b; [apply is_colon_to_lower | apply is_colon_to_upper].
Qed.

Lemma lstrip_app_colon p q :
  lstrip (p ++ colon :: q) = lstrip p ++ colon :: q.
Proof.
  induction p as [|c p IH]; simpl; [reflexivity|].
  now destruct (is_space c).
Qed.

Lemma lstrip_spaces_app ws s :
  forallb is_space ws = true -> lstrip (ws ++ s) = lstrip s.
Proof.
  induction ws as [|c ws IH]; simpl; [reflexivity|].
  intros H. apply andb_true_iff in H. destruct H as [-> H]. now apply IH.
Qed.

Lemma forallb_rev {A : Type} (p : A -> bool) l :
  forallb p l = true -> forallb p (rev l) = true.
Proof.
  rewrite !forallb_forall. intros H x Hx. apply H. now apply in_rev.
Qed.

(** [rstrip] removes a trailing block of whitespace and nothing else. *)
Lemma rstrip_spaces a ws :
  forallb is_space ws = true -> trailing_space a = false ->
  rstrip (a ++ ws) = a.
Proof.
  intros Hws Ha. unfold rstrip.
  rewrite rev_app_distr, lstrip_spaces_app by now apply forallb_rev.
  rewrite lstrip_fixed by exact Ha. apply rev_involutive.
Qed.

Lemma trailing_space_rstrip s : trailing_space (rstrip s) = false.
Proof.
  unfold trailing_space, rstrip. rewrite rev_involutive.
  apply leading_space_lstrip.
Qed.

Lemma title_from_app b x y :
  exists b', title_from b (x ++ y) = title_from b x ++ title_from b' y.
Proof.
  revert b. induction x as [|c x IH]; intros b; simpl.
  - exists b. reflexivity.
  - destruct (IH (is_cased c)) as (b' & ->). exists b'. reflexivity.
Qed.

Lemma title_from_all_spaces b ws :
  forallb is_space ws = true -> forallb is_space (title_from b ws) = true.
Proof.
  revert b. induction ws as [|c ws IH]; intros b; simpl; [reflexivity|].
  intros H. apply andb_true_iff in H. destruct H as [Hc H].
  rewrite (IH _ H), andb_true_r.
  destruct b; [now rewrite is_space_to_lower | now rewrite is_space_to_upper].
Qed.

Lemma trailing_space_title_from b s :
  trailing_space (title_from b s) = trailing_space s.
Proof.
  unfold trailing_space, leading_space.
  now rewrite !map_rev, title_from_spaces.
Qed.

(** Title-casing and right-trimming commute. *)
Lemma rstrip_title_from b s :
  rstrip (title_from b s) = title_from b (rstrip s).
Proof.
  destruct (rstrip_decomposes s) as (ws & Hs & Hws).
  rewrite Hs at 1.
  destruct (title_from_app b (rstrip s) ws) as (b' & ->).
  apply rstrip_spaces.
  - now apply title_from_all_spaces.
  - rewrite trailing_space_title_from. apply trailing_space_rstrip.
Qed.

Lemma rstrip_keeps_colon x q :
  exists q', rstrip (x ++ colon :: q) = x ++ colon :: q'.
Proof.
  destruct (rstrip_decomposes (x ++ colon :: q)) as (ws & Heq & Hws).
  assert (~ In colon ws) as Hcolon.
  { intros Hin. rewrite forallb_forall in Hws. specialize (Hws _ Hin).
    discriminate. }
  apply app_eq_app in Heq. destruct Heq as (l & [[Hx Hq]|[Hr Hq]]).
  - exfalso. apply Hcolon. rewrite Hq. apply in_or_app. right. now left.
  - destruct l as [|c l].
    + simpl in Hq. subst ws. exfalso. apply Hcolon. now left.
    + injection Hq as <- Hq. exists l. exact Hr.
Qed.

(** X13.  For an ASCII label written [code: description], with no colon in
    the code, label repair returns the trimmed, title-cased code, whatever
    the description is. *)
Theorem clean_taxonomy_labels_code_before_colon code description :
  ascii_text (code ++ colon :: description) ->
  contains_colon code = false ->
  clean_taxonomy_labels (code ++ colon :: description)
  = Some (title (strip code)).
Proof.
  intros _ Hcode.
  assert (code ++ colon :: description <> []) as Hne
    by (destruct code; discriminate).
  rewrite (clean_taxonomy_labels_cases Hne). cbv zeta.
  assert (exists rest,
             title (strip (code ++ colon :: description))
             = title (lstrip code) ++ colon :: rest) as (rest & Heq).
  { unfold strip. rewrite lstrip_app_colon.
    destruct (rstrip_keeps_colon (lstrip code) description) as (q' & ->).
    unfold title.
    destruct (title_from_app false (lstrip code) (colon :: q')) as (b' & ->).
    exists (title_from (is_cased colon) q'). f_equal. simpl.
    now destruct b'. }
  rewrite Heq, contains_colon_inserted.
  assert (contains_colon (title (lstrip code)) = false) as Hfree.
  { unfold title. rewrite contains_colon_title_from.
    revert Hcode. apply contains_colon_sub. intros c. apply In_lstrip. }
  rewrite (split_colon_1_inserted _ _ Hfree). f_equal.
  unfold strip at 1.
  rewrite lstrip_fixed.
  - unfold title. rewrite rstrip_title_from. reflexivity.
  - unfold leading_space, title. rewrite title_from_spaces.
    apply leading_space_lstrip.
Qed.

Lemma clean_taxonomy_labels_code_before_colon_witness :
  clean_taxonomy_labels (py " tx04.5 " ++ colon :: py " capture: arms ")
  = Some (title (strip (py " tx04.5 "))).
Proof.
  apply clean_taxonomy_labels_code_before_colon; reflexivity.
Defined.

(** ** Description sanitization, continued *)

(** X14.  [clean_description] always returns a text that is not empty, holds only
    word characters, whitespace, commas, periods and hyphens, and neither
    starts nor ends with whitespace. *)
Theorem clean_description_shape (desc : cell) :
  exists s,
    clean_description desc = Text s
    /\ s <> []
    /\ forallb description_keeps s = true
    /\ no_outer_space s.
Proof.
  assert (no_description <> []
          /\ forallb description_keeps no_description = true
          /\ no_outer_space no_description) as Hplaceholder
    by (repeat split; discriminate).
  destruct desc as [d| |]; simpl; eauto.
  destruct (nonempty (strip (CLEAN_DESCRIPTION_sub d))) eqn:Hne; eauto.
  exists (strip (CLEAN_DESCRIPTION_sub d)). split; [reflexivity|].
  split; [|split].
  - intros Heq. rewrite Heq in Hne. discriminate.
  - apply forallb_forall. intros c Hc. apply In_strip in Hc.
    unfold CLEAN_DESCRIPTION_sub in Hc. now apply filter_In in Hc.
  - apply strip_no_outer_space.
Qed.

(** X15.  Sanitizing a sanitized description changes nothing. *)
Theorem clean_description_twice (desc : cell) :
  clean_description (clean_description desc) = clean_description desc.
Proof.
  rewrite <- (clean_description_idempotent desc) at 2.
  destruct (clean_description_is_text desc) as (s & ->). reflexivity.
Qed.

(** ** Consolidation of the functional categories *)



(** X9.  On a frame whose functional-category texts are ASCII, in every
    output row both functional-category fields are texts, and the Level Two
    value, computed by the second pass, is never longer than the Level One
    value. *)
Theorem functional_level_two_not_longer df out o :
  (forall r, In r df ->
     ascii_cell (level_one_functional_category r)
     /\ ascii_cell (level_two_functional_category r)) ->
  standardize_inventory_data df = Ok out -> In o out ->
  exists one two,
    level_one_functional_category o = Text one
    /\ level_two_functional_category o = Text two
    /\ List.length two <= List.length one.
Proof.
  intros _ Hout Ho. apply standardize_inventory_data_rows in Hout.
  destruct Hout as (_ & _ & Hrows).
  destruct (@mapM_In _ _ _ _ _ _ Hrows Ho) as (r & _ & Hro).
  apply standardize_row_Ok in Hro.
  destruct Hro as (t & f1 & f2 & _ & E1 & E2 & ->).
  cbn [standardized level_one_functional_category
       level_two_functional_category].
  revert E1 E2. unfold longest_functional_category.
  destruct r as [? ? ? ? ? ? ? ? a b].
  cbn [level_one_functional_category level_two_functional_category
       set_level_one_functional_category].
  intros E1 E2.
  assert (exists one, f1 = Some one) as (one & ->).
  { destruct a as [sa| |], b as [sb| |]; simpl in E1;
      repeat match type of E1 with
             | context [clean_taxonomy_labels ?s] =>
                 destruct (clean_taxonomy_labels s); simpl in E1
             | context [?n <? ?m] => destruct (n <? m); simpl in E1
             end;
      try discriminate; injection E1 as <-; eauto. }
  simpl cell_of_value in E2.
  assert (forall c', clean_taxonomy_labels one = Some c' ->
                     List.length c' <= List.length one) as Hc
    by (intros c'; apply repaired_label_length).
  destruct b as [sb| |]; simpl in E2;
    (destruct (clean_taxonomy_labels one) as [c'|]; [|discriminate]);
    specialize (Hc c' eq_refl); simpl in E2.
  - destruct (clean_taxonomy_labels sb) as [b'|] eqn:Hb; [|discriminate].
    simpl in E2.
    assert (List.length b' <= List.length one) as Hb'.
    { destruct a as [sa| |]; simpl in E1; rewrite Hb in E1; simpl in E1.
      - destruct (clean_taxonomy_labels sa) as [a'|]; [|discriminate].
        simpl in E1.
        destruct (List.length a' <? List.length b') eqn:Hab;
          injection E1 as <-; [lia|]. now apply Nat.ltb_ge.
      - injection E1 as <-. lia.
      - injection E1 as <-. lia. }
    destruct (List.length c' <? List.length b'); injection E2 as <-;
      simpl; eauto.
  - injection E2 as <-. simpl. eauto.
  - injection E2 as <-. simpl. eauto.
Qed.

Lemma functional_level_two_not_longer_witness :
  exists one two,
    level_one_functional_category (hd Sample.stable_row Sample.stable_output)
    = Text one
    /\ level_two_functional_category
         (hd Sample.stable_row Sample.stable_output) = Text two
    /\ List.length two <= List.length one.
Proof.
  apply (@functional_level_two_not_longer [Sample.stable_row]
                                          Sample.stable_output).
  - intros r [<-|[]]. split; reflexivity.
  - vm_compute. reflexivity.
  - left. reflexivity.
Defined.

(** ** Failures *)

Lemma max_loop_py_len_Raise maxitem maxval rest e :
  max_loop py_len maxitem maxval rest = Raise e -> e = TypeError.
Proof.
  revert maxitem maxval. induction rest as [|x rest IH]; intros m n H.
  - discriminate.
  - simpl in H. destruct x as [s|]; simpl in H.
    + destruct (n <? List.length s); eapply IH; exact H.
    + now injection H as <-.
Qed.

Lemma longest_tech_category_Raise r e :
  longest_tech_category r = Raise e -> e = TypeError.
Proof.
  unfold longest_tech_category. cbv zeta.
  destruct (map clean_taxonomy_labels _) as [|x l]; [discriminate|].
  simpl. destruct x as [s|]; simpl.
  - apply max_loop_py_len_Raise.
  - intros H. now injection H as <-.
Qed.

Lemma longest_functional_category_empty_string r :
  In (Text []) [level_one_functional_category r;
                level_two_functional_category r] ->
  longest_functional_category r = Raise TypeError.
Proof.
  intros Hin. unfold longest_functional_category. cbv zeta.
  assert (In None (map clean_taxonomy_labels
                     (str_instances [level_one_functional_category r;
                                     level_two_functional_category r])))
    as Hnone.
  { destruct (level_one_functional_category r) as [[|? ?]| |],
             (level_two_functional_category r) as [[|? ?]| |];
      simpl in Hin |- *;
      repeat match goal with
             | H : _ \/ _ |- _ => destruct H
             | H : False |- _ => destruct H
             end;
      try discriminate; tauto. }
  destruct (map clean_taxonomy_labels _) as [|x l]; [destruct Hnone|].
  now apply py_max_py_len_None.
Qed.

Lemma row_completes_of_frame df out r :
  standardize_inventory_data df = Ok out -> In r df ->
  exists o, standardize_row r = Ok o.
Proof.
  intros Hout Hr. apply standardize_inventory_data_rows in Hout.
  destruct Hout as (_ & _ & Hrows).
  apply (@mapM_Ok_each _ _ standardize_row (drop_duplicates df) out r Hrows).
  now apply drop_duplicates_distinct_rows.
Qed.

(** X16.  A category cell holding the empty string makes consolidation of its row
    raise TypeError, in the technology pass and in the functional pass alike,
    and the pipeline never completes on a frame that has such a row. *)
Theorem empty_string_category_never_completes r :
  In (Text []) [level_one_category r; level_two_category r;
                level_three_category r;
                level_one_functional_category r;
                level_two_functional_category r] ->
  (longest_tech_category r = Raise TypeError
   \/ longest_functional_category r = Raise TypeError)
  /\ forall df out, In r df -> standardize_inventory_data df <> Ok out.
Proof.
  intros Hin.
  assert (longest_tech_category r = Raise TypeError
          \/ longest_functional_category r = Raise TypeError) as Hraise.
  { simpl in Hin. destruct Hin as [H|[H|[H|[H|[H|[]]]]]].
    - left. apply longest_tech_category_empty_string. simpl. auto.
    - left. apply longest_tech_category_empty_string. simpl. auto.
    - left. apply longest_tech_category_empty_string. simpl. auto.
    - right. apply longest_functional_category_empty_string. simpl. auto.
    - right. apply longest_functional_category_empty_string. simpl. auto. }
  split; [exact Hraise|].
  intros df out Hr Hout.
  destruct (@row_completes_of_frame df out r Hout Hr) as (o & Ho).
  apply standardize_row_Ok in Ho.
  destruct Ho as (t & f1 & f2 & Ht & Hf1 & _).
  destruct Hraise as [H|H]; congruence.
Qed.

Lemma empty_string_category_never_completes_witness :
  (longest_tech_category Sample.empty_category_row = Raise TypeError
   \/ longest_functional_category Sample.empty_category_row
      = Raise TypeError)
  /\ forall df out,
       In Sample.empty_category_row df ->
       standardize_inventory_data df <> Ok out.
Proof.
  apply (@empty_string_category_never_completes Sample.empty_category_row).
  left. reflexivity.
Defined.

(** X17.  When the first functional pass of a row returns the empty string (a
    whitespace-only label, or a label that starts with a colon), the second
    pass reads that empty string back and raises TypeError: the row fails,
    and the pipeline never completes on a frame that has such a row. *)
Theorem empty_functional_value_never_completes r :
  longest_functional_category r = Ok (Some []) ->
  standardize_row r = Raise TypeError
  /\ forall df out, In r df -> standardize_inventory_data df <> Ok out.
Proof.
  intros Hf1.
  assert (longest_functional_category
            (set_level_one_functional_category (Text []) r)
          = Raise TypeError) as Hf2.
  { apply longest_functional_category_empty_string.
    destruct r. simpl. auto. }
  split.
  - unfold standardize_row, consolidate_technology,
      consolidate_functional_one, consolidate_functional_two.
    rewrite (@longest_tech_category_categories r (normalize_names r))
      by (destruct r; reflexivity).
    destruct (longest_tech_category r) as [t|e] eqn:Ht.
    + rewrite !bind_Ok.
      rewrite (@longest_functional_category_categories r)
        by (destruct r; reflexivity).
      rewrite Hf1, !bind_Ok.
      rewrite (@longest_functional_category_categories
                 (set_level_one_functional_category (Text []) r))
        by (destruct r; reflexivity).
      rewrite Hf2. reflexivity.
    + apply longest_tech_category_Raise in Ht. subst e. reflexivity.
  - intros df out Hr Hout.
    destruct (@row_completes_of_frame df out r Hout Hr) as (o & Ho).
    apply standardize_row_Ok in Ho.
    destruct Ho as (t & f1 & f2 & _ & Hf1' & Hf2' & _).
    rewrite Hf1 in Hf1'. injection Hf1' as <-.
    simpl in Hf2'. congruence.
Qed.

Lemma empty_functional_value_never_completes_witness :
  standardize_row Sample.blank_functional_row = Raise TypeError
  /\ forall df out,
       In Sample.blank_functional_row df ->
       standardize_inventory_data df <> Ok out.
Proof.
  apply (@empty_functional_value_never_completes
           Sample.blank_functional_row).
  reflexivity.
Defined.

Lemma str_accessor_Raise series e :
  str_accessor series = Raise e -> e = AttributeError.
Proof.
  unfold str_accessor. destruct series as [|c l]; [discriminate|].
  destruct (existsb is_text (c :: l)); [discriminate|].
  intros H. now injection H as <-.
Qed.

Lemma str_accessor_without_text (get : row -> cell) d :
  d <> [] -> (forall r, In r d -> is_text (get r) = false) ->
  str_accessor (column get d) = Raise AttributeError.
Proof.
  intros Hne Hall. unfold str_accessor, column.
  destruct d as [|r d]; [congruence|]. simpl map. cbv iota.
  replace (existsb is_text (get r :: map get d)) with false; [reflexivity|].
  symmetry. change (get r :: map get d) with (map get (r :: d)).
  generalize dependent (r :: d). clear. intros l _ Hall.
  induction l as [|x l IH]; simpl; [reflexivity|].
  rewrite (Hall x) by now left. apply IH. intros y Hy. apply Hall. now right.
Qed.

(** X19.  On a frame that has rows, when no Technology Name cell is text, or no
    Tech Producer cell is text (all numbers or all missing), the call raises
    AttributeError; no placeholder is filled in. *)
Theorem name_column_without_text_raises df :
  df <> [] ->
  (forall r, In r df -> is_text (technology_name r) = false)
  \/ (forall r, In r df -> is_text (tech_producer r) = false) ->
  standardize_inventory_data df = Raise AttributeError.
Proof.
  intros Hne Hcol.
  assert (drop_duplicates df <> []) as Hd.
  { destruct df as [|r df]; [congruence|].
    intros Heq. pose proof (@drop_duplicates_distinct_rows (r :: df) r) as H.
    rewrite Heq in H. apply H. now left. }
  assert (forall r, In r (drop_duplicates df) -> In r df) as Hsub.
  { intros r. apply drop_duplicates_seen_spec. }
  unfold standardize_inventory_data. cbv zeta.
  revert Hd Hsub. generalize (drop_duplicates df). intros d Hd Hsub.
  assert (List.length
            (map (str_cell title)
               (map (str_cell strip) (column technology_name d)))
          = List.length d) as Hlen
    by (unfold column; now rewrite !length_map).
  destruct (str_accessor (column technology_name d)) as [[]|e] eqn:A1.
  - destruct Hcol as [Hcol|Hcol].
    + rewrite (@str_accessor_without_text technology_name d) in A1;
        [discriminate | exact Hd | auto].
    + rewrite (@str_method_eval strip _ A1), bind_Ok.
      rewrite str_method_eval, bind_Ok by now rewrite str_accessor_str_cell.
      rewrite column_tech_producer_after_names by exact Hlen.
      unfold str_method at 1.
      rewrite (@str_accessor_without_text tech_producer d);
        [reflexivity | exact Hd | auto].
  - apply str_accessor_Raise in A1 as Heq. subst e.
    unfold str_method at 1. rewrite A1. reflexivity.
Qed.

Lemma name_column_without_text_raises_witness :
  standardize_inventory_data [Sample.numeric_name_row]
  = Raise AttributeError.
Proof.
  apply name_column_without_text_raises.
  - discriminate.
  - left. intros r [<-|[]]. reflexivity.
Defined.

(** ** Shape of the consolidated values *)

Lemma repaired_label_colon_free_trimmed label v :
  clean_taxonomy_labels label = Some v ->
  contains_colon v = false /\ no_outer_space v.
Proof.
  intros Hv.
  assert (label <> []) as Hne by (intros ->; discriminate).
  rewrite (clean_taxonomy_labels_cases Hne) in Hv. injection Hv as <-.
  destruct (contains_colon (title (strip label))) eqn:Hcolon.
  - split; [|apply strip_no_outer_space].
    apply contains_colon_strip, split_colon_1_head.
  - destruct (search_digits (title (strip label))) as [[b e]|].
    + split; [|apply strip_no_outer_space].
      now apply contains_colon_strip, contains_colon_firstn.
    + split; [assumption|].
      apply title_no_outer_space, strip_no_outer_space.
Qed.

Lemma max_loop_In {A : Type} (key : A -> result nat) maxitem maxval rest v :
  max_loop key maxitem maxval rest = Ok v -> v = maxitem \/ In v rest.
Proof.
  revert maxitem maxval. induction rest as [|x rest IH]; intros m n H.
  - simpl in H. injection H as <-. now left.
  - simpl in H. destruct (key x) as [val|e]; [simpl in H | discriminate].
    destruct (n <? val); apply IH in H; simpl; intuition.
Qed.

(** [max] returns one of the items it was given. *)
Lemma py_max_In {A : Type} (key : A -> result nat) items v :
  py_max key items = Ok v -> In v items.
Proof.
  destruct items as [|x items]; simpl; [discriminate|].
  destruct (key x) as [n|e]; simpl; [|discriminate].
  intros H. apply max_loop_In in H. intuition.
Qed.

Lemma py_max_py_len_Some items v :
  py_max py_len items = Ok v -> exists w, v = Some w.
Proof.
  intros H. destruct v as [w|]; [eauto|].
  apply py_max_In in H as Hin.
  rewrite (py_max_py_len_None _ Hin) in H. discriminate.
Qed.

Lemma consolidated_value_shape (categories : list cell) placeholder v :
  contains_colon placeholder = false -> no_outer_space placeholder ->
  (let labels := map clean_taxonomy_labels (str_instances categories) in
   if negb (match labels with [] => false | _ => true end)
   then Ok (Some placeholder)
   else py_max py_len labels) = Ok v ->
  exists w, v = Some w /\ contains_colon w = false /\ no_outer_space w.
Proof.
  intros Hp1 Hp2. cbv zeta.
  destruct (map clean_taxonomy_labels (str_instances categories))
    as [|x l] eqn:Hlabels; simpl negb; cbv iota.
  - intros H. injection H as <-. eauto.
  - intros H. destruct (py_max_py_len_Some _ H) as (w & ->).
    exists w. split; [reflexivity|].
    apply py_max_In in H. rewrite <- Hlabels in H.
    apply in_map_iff in H. destruct H as (s & Hs & _).
    now apply repaired_label_colon_free_trimmed in Hs.
Qed.

(** X8.  In every output row the technology-category value and both
    functional-category values are texts that contain no colon and neither
    start nor end with whitespace. *)
Theorem output_categories_colon_free_trimmed df out o :
  standardize_inventory_data df = Ok out -> In o out ->
  exists t f1 f2,
    level_one_category o = Text t
    /\ level_one_functional_category o = Text f1
    /\ level_two_functional_category o = Text f2
    /\ (~ In colon t /\ no_outer_space t)
    /\ (~ In colon f1 /\ no_outer_space f1)
    /\ (~ In colon f2 /\ no_outer_space f2).
Proof.
  intros Hout Ho. apply standardize_inventory_data_rows in Hout.
  destruct Hout as (_ & _ & Hrows).
  destruct (@mapM_In _ _ _ _ _ _ Hrows Ho) as (r & _ & Hro).
  apply standardize_row_Ok in Hro.
  destruct Hro as (t & f1 & f2 & Et & E1 & E2 & ->).
  apply consolidated_value_shape in Et; [|reflexivity | split; reflexivity].
  apply consolidated_value_shape in E1; [|reflexivity | split; reflexivity].
  apply consolidated_value_shape in E2; [|reflexivity | split; reflexivity].
  destruct Et as (t' & -> & Ht1 & Ht2).
  destruct E1 as (a & -> & Ha1 & Ha2).
  destruct E2 as (b & -> & Hb1 & Hb2).
  exists t', a, b. simpl.
  pose proof (@contains_colon_In t' Ht1).
  pose proof (@contains_colon_In a Ha1).
  pose proof (@contains_colon_In b Hb1).
  tauto.
Qed.

Lemma output_categories_colon_free_trimmed_witness :
  exists t f1 f2,
    level_one_category (hd Sample.stable_row Sample.stable_output) = Text t
    /\ level_one_functional_category
         (hd Sample.stable_row Sample.stable_output) = Text f1
    /\ level_two_functional_category
         (hd Sample.stable_row Sample.stable_output) = Text f2
    /\ (~ In colon t /\ no_outer_space t)
    /\ (~ In colon f1 /\ no_outer_space f1)
    /\ (~ In colon f2 /\ no_outer_space f2).
Proof.
  apply (@output_categories_colon_free_trimmed [Sample.stable_row]
                                               Sample.stable_output).
  - vm_compute. reflexivity.
  - left. reflexivity.
Defined.
